(** * daraz_scraper: review fetching, sentiment counting and issue tallying

    A shallow embedding of [get_daraz_reviews], [analyze_reviews] and
    [analyze_product] of [daraz_scraper.py], with the properties of the
    pipeline stated and proved over it.

    The HTTP transport ([requests.get] / [response.json]), the sentiment
    model ([sentiment_analyzer]) and stdout ([print]) are collaborators
    outside the module; they are Section variables, so every theorem holds
    for each behaviour they can show.  The same holds for two tables of the
    Python runtime: the Unicode class behind [\d] and the case mapping
    behind [str.lower].  The fetcher on its own, [get_daraz_reviews], is
    stated for a stdout that takes the line of line 49; the handler runs it
    on any stdout. *)

From Stdlib Require Import ZArith Ascii String.
From stdpp Require Import gmap strings list sorting pretty.

Local Open Scope Z_scope.

(** ** Python values *)

(** A Python [str] is a sequence of code points; [s[:512]] cuts after 512 of
    them, whatever their encoded width. *)
Definition char := N.
Definition str := list char.

(** A string literal of the source (all of them are ASCII). *)
Fixpoint lit (s : string) : str :=
  match s with
  | EmptyString => []
  | String a s' => N_of_ascii a :: lit s'
  end.

Arguments lit : simpl never.

(** [p] is a prefix of [s]. *)
Fixpoint starts_with (p s : str) : bool :=
  match p, s with
  | [], _ => true
  | a :: p', b :: s' => (a =? b)%N && starts_with p' s'
  | _ :: _, [] => false
  end.

(** Python's [p in s] on two strings: [p] occurs in [s] as a substring. *)
Fixpoint contains (s p : str) : bool :=
  starts_with p s ||
  match s with
  | [] => false
  | _ :: s' => contains s' p
  end.

(** What a call does: it returns a value or raises. *)
Inductive exn := TypeError | AttributeError | ModelError.

Inductive result (A : Type) :=
  | Ok (a : A)
  | Raise (e : exn).
Arguments Ok {A} a.
Arguments Raise {A} e.

#[global] Instance result_bind : MBind result := λ A B f m,
  match m with
  | Ok a => f a
  | Raise e => Raise e
  end.

(** [try: m except: d]. *)
Definition try_except {A} (m : result A) (d : A) : A :=
  match m with
  | Ok a => a
  | Raise _ => d
  end.

(** ** Data model *)

(** A value of the payload, as [response.json()] gives it.  [JNull] is
    Python's [None]; a number is kept by its literal, the code copies
    numbers and never computes with them. *)
Local Unset Elimination Schemes.
Inductive json :=
  | JNull
  | JBool (b : bool)
  | JNumber (literal : str)
  | JString (s : str)
  | JArray (elements : list json)
  | JObject (members : list (str * json)).
Local Set Elimination Schemes.

(** The text of a value that is a [str]. *)
Definition text_of (v : json) : option str :=
  match v with
  | JString s => Some s
  | _ => None
  end.

(** The dict built for each item at lines 37-43.  Each field is what
    [item.get] gave, unchecked: any value of the payload, [None] for a key
    the item does not have. *)
Record review := Review {
  author : json;
  rating : json;
  date : json;
  content : json;
  likes : json
}.

(** An element of the [items] list of a response: a JSON object, given by
    the five values that [item.get] reads from it, or any other JSON value
    (null, a number, a string, ...), on which [item.get] raises
    [AttributeError]. *)
Inductive raw_item :=
  | ItemObject (buyerName item_rating reviewTime reviewContent likeCount : json)
  | ItemOther.

(** What lines 32-34 give for one page: an exception ([requests.get] times
    out, the body is not JSON, [data] or [data['model']] has no [get],
    [items] is not iterable), or the sequence that [for item in items]
    walks. *)
Inductive page_response :=
  | FetchFailed
  | Items (items : list raw_item).

#[global] Instance exn_eq_dec : EqDecision exn.
Proof. solve_decision. Defined.

(** [not items], for the [items] of a page that was fetched. *)
#[global] Instance page_empty_dec (resp : page_response) : Decision (resp = Items []).
Proof.
  destruct resp as [|[|item items]]; [right|left|right]; congruence.
Defined.

(** ** ReviewFetcher: [get_daraz_reviews] *)

Section Fetcher.

(** [\d] of Python's [re] on a [str] pattern: a Unicode decimal digit. *)
Variable is_digit : char → bool.

(** The remote endpoint: response for a product id and a page number.  Each
    page is requested at most once in a call, so a function of the page
    number covers every run. *)
Variable fetch : str → Z → page_response.

(** The longest run of digits at the head of [s]: the greedy [\d+]. *)
Fixpoint digits (s : str) : str :=
  match s with
  | c :: s' => if is_digit c then c :: digits s' else []
  | [] => []
  end.

(** [-i(\d+)] anchored at the head of [s]; the result is group 1. *)
Definition match_here (s : str) : option str :=
  if starts_with (lit "-i") s then
    match digits (drop 2 s) with
    | [] => None
    | ds => Some ds
    end
  else None.

(** [re.search(r'-i(\d+)', url)] followed by [.group(1)]: the leftmost
    position where the pattern matches. *)
Fixpoint re_search (url : str) : option str :=
  match match_here url with
  | Some g => Some g
  | None =>
    match url with
    | [] => None
    | _ :: url' => re_search url'
    end
  end.

Definition to_review (buyerName item_rating reviewTime reviewContent likeCount : json)
    : review :=
  {| author := buyerName; rating := item_rating; date := reviewTime;
     content := reviewContent; likes := likeCount |}.

(** The loop of lines 36-43 over [items], appending to [reviews].  The list
    is mutated in place, so what was appended before an exception stays. *)
Fixpoint append_items (items : list raw_item) (reviews : list review)
  : list review * result unit :=
  match items with
  | [] => (reviews, Ok tt)
  | ItemObject a r d c l :: items' =>
    append_items items' (reviews ++ [to_review a r d c l])
  | ItemOther :: _ => (reviews, Raise AttributeError)
  end.

(** The loop of lines 29-50, [n] iterations left, the next being [page].
    The state is the [reviews] list and [log], the page numbers requested
    so far (the calls of [requests.get], in order).  Stdout is not part of
    the state: the line of line 49 is taken to be written;
    [fetch_pages_reporting] below is the loop on a stdout that may refuse
    it. *)
Fixpoint fetch_pages (product_id : str) (n : nat) (page : Z)
    (reviews : list review) (log : list Z) : list review * list Z :=
  match n with
  | O => (reviews, log)
  | S n' =>
    let log' := log ++ [page] in
    match fetch product_id page with
    | FetchFailed => fetch_pages product_id n' (page + 1) reviews log'
    | Items items =>
      match append_items items reviews with
      | (reviews', Raise _) => fetch_pages product_id n' (page + 1) reviews' log'
      | (reviews', Ok _) =>
        match items with
        | [] => (reviews', log')
        | _ :: _ => fetch_pages product_id n' (page + 1) reviews' log'
        end
      end
    end
  end.

(** [get_daraz_reviews(url, max_pages)]: the reviews returned, and the page
    numbers requested on the way.  [range(1, max_pages + 1)] has
    [max_pages] elements, none when [max_pages <= 0]. *)
Definition get_daraz_reviews (url : str) (max_pages : Z) : list review * list Z :=
  match re_search url with
  | None => ([], [])
  | Some product_id => fetch_pages product_id (Z.to_nat max_pages) 1 [] []
  end.

(** The url has a [-i<digits>] segment: [-i] followed by at least one
    digit. *)
Definition has_product_pattern (url : str) : Prop :=
  ∃ pre d post, url = pre ++ lit "-i" ++ d :: post ∧ is_digit d = true.

(** Processing the page ends in the [except] branch. *)
Definition page_raises (resp : page_response) : Prop :=
  match resp with
  | FetchFailed => True
  | Items items => ItemOther ∈ items
  end.

(** The reviews that processing the page appends: those of the items
    before the first one that is not an object. *)
Fixpoint parsed_items (items : list raw_item) : list review :=
  match items with
  | ItemObject a r d c l :: items' => to_review a r d c l :: parsed_items items'
  | _ => []
  end.

Definition page_reviews (resp : page_response) : list review :=
  match resp with
  | FetchFailed => []
  | Items items => parsed_items items
  end.


End Fetcher.

(** ** ReviewAnalyzer: [analyze_reviews] *)

(** The dict returned by [analyze_reviews]: ['stats'] maps names to counts,
    ['issues'] is a dict whose iteration order is its insertion order, and
    ['time_taken'] is present in the empty case only. *)
Record analysis := Analysis {
  stats : gmap string Z;
  issues : list (string * Z);
  time_taken : option Z
}.

(** The literal of lines 81-87, in the order it is written, which is the
    order [issue_keywords.items()] yields. *)
Definition issue_keywords : list (string * list str) :=
  [ ("quality", [lit "quality"; lit "poor"; lit "cheap"; lit "broken"; lit "defective"]);
    ("delivery", [lit "delivery"; lit "late"; lit "slow"; lit "shipping"]);
    ("price", [lit "price"; lit "expensive"; lit "overpriced"]);
    ("description", [lit "description"; lit "different"; lit "wrong"]);
    ("service", [lit "service"; lit "customer"; lit "support"]) ].

(** [sum(1 for s in sentiments if s == label)]. *)
Fixpoint count_label (label : str) (sentiments : list str) : Z :=
  match sentiments with
  | [] => 0
  | s :: rest => (if decide (s = label) then 1 else 0) + count_label label rest
  end.

(** [[r for r, s in pairs if s == 'NEGATIVE']]. *)
Fixpoint select_negative (pairs : list (review * str)) : list review :=
  match pairs with
  | [] => []
  | (r, s) :: rest =>
    if decide (s = lit "NEGATIVE") then r :: select_negative rest
    else select_negative rest
  end.

(** [issue_counts[issue] += 1] on a [defaultdict(int)]: a key already there
    keeps its place, a new key is entered last with count 1. *)
Fixpoint incr (issue : string) (counts : list (string * Z)) : list (string * Z) :=
  match counts with
  | [] => [(issue, 1)]
  | (k, v) :: counts' =>
    if decide (k = issue) then (k, v + 1) :: counts'
    else (k, v) :: incr issue counts'
  end.

(** [any(keyword in content for keyword in keywords)]. *)
Definition any_keyword (content : str) (keywords : list str) : bool :=
  existsb (contains content) keywords.

(** The inner loop of lines 91-94 over the rest [table] of the taxonomy:
    the first category with a keyword in [content] is incremented, and the
    loop is left. *)
Fixpoint scan_keywords (content : str) (table : list (string * list str))
    (counts : list (string * Z)) : list (string * Z) :=
  match table with
  | [] => counts
  | (issue, keywords) :: table' =>
    if any_keyword content keywords then incr issue counts
    else scan_keywords content table' counts
  end.

(** [sorted(items, key=lambda x: x[1], reverse=True)]: Python's sort is
    stable, also under [reverse=True], so items of equal count keep the
    order they have in [items].  [insert_desc x l] puts [x], which stood
    before every element of [l], into the sorted [l]. *)
Fixpoint insert_desc (x : string * Z) (l : list (string * Z)) : list (string * Z) :=
  match l with
  | [] => [x]
  | y :: l' => if y.2 <=? x.2 then x :: y :: l' else y :: insert_desc x l'
  end.

Fixpoint sorted_desc (items : list (string * Z)) : list (string * Z) :=
  match items with
  | [] => []
  | x :: items' => insert_desc x (sorted_desc items')
  end.

(** The first category of [table] with a keyword in [content], if there
    is one: IssueClassifier's [classify], on the lower-cased content. *)
Fixpoint first_match (content : str) (table : list (string * list str)) : option string :=
  match table with
  | [] => None
  | (issue, keywords) :: table' =>
    if any_keyword content keywords then Some issue
    else first_match content table'
  end.

(** [counts.get(issue, 0)]. *)
Fixpoint count_of (issue : string) (counts : list (string * Z)) : Z :=
  match counts with
  | [] => 0
  | (k, v) :: counts' => if decide (k = issue) then v else count_of issue counts'
  end.

(** [sum(counts.values())]. *)
Fixpoint sum_counts (counts : list (string * Z)) : Z :=
  match counts with
  | [] => 0
  | (_, v) :: counts' => v + sum_counts counts'
  end.

(** The position of the first occurrence of [issue] in [l] ([length l]
    when there is none). *)
Fixpoint first_index (issue : string) (l : list string) : nat :=
  match l with
  | [] => 0
  | k :: l' => if decide (k = issue) then 0%nat else S (first_index issue l')
  end.

(** The position of a category in the declared taxonomy. *)
Definition taxonomy_index (issue : string) : nat :=
  first_index issue (issue_keywords.*1).

(** [x] may stand before [y]: its count is greater, or the counts are equal
    and [before x y]. *)
Definition desc_then (before : relation (string * Z)) : relation (string * Z) :=
  λ x y, y.2 < x.2 ∨ (y.2 = x.2 ∧ before x y).

(** [l] is in descending order of count, and entries of equal count are in
    ascending order of [position]. *)
Definition ranked (position : string → nat) (l : list (string * Z)) : Prop :=
  StronglySorted (desc_then (λ x y, (position x.1 < position y.1)%nat)) l.

Section Analyzer.

(** [sentiment_analyzer(text)[0]['label']]: the label of the model's first
    result, or an exception from the call or from reading the result. *)
Variable sentiment_analyzer : str → result str.

(** The same expression when the argument is a list, which the pipeline
    takes as a batch of inputs. *)
Variable sentiment_analyzer_batch : list json → result str.

(** [str.lower]. *)
Variable lower : str → str.

(** The body of the [try] of lines 67-69.  A [str] and a list take
    [[:512]]; [None], a bool, a number and a dict raise there (a
    [TypeError]; for a dict a [KeyError] from Python 3.12 on, where a slice
    can be hashed: the bare [except] of line 70 takes the one as the
    other). *)
Definition classify (r : review) : result str :=
  match content r with
  | JString s => sentiment_analyzer (take 512 s)
  | JArray elements => sentiment_analyzer_batch (take 512 elements)
  | JNull | JBool _ | JNumber _ | JObject _ => Raise TypeError
  end.

(** Lines 66-71 for one review. *)
Definition sentiment_of (r : review) : str :=
  try_except (classify r) (lit "NEUTRAL").

(** The loop of lines 65-71. *)
Fixpoint sentiments_of (reviews : list review) : list str :=
  match reviews with
  | [] => []
  | r :: rest => sentiment_of r :: sentiments_of rest
  end.

(** The loop of lines 89-94; only a [str] has [lower], on any other value
    [.lower()] raises. *)
Fixpoint tally_issues (negative_reviews : list review)
    (issue_counts : list (string * Z)) : result (list (string * Z)) :=
  match negative_reviews with
  | [] => Ok issue_counts
  | r :: rest =>
    match content r with
    | JString s => tally_issues rest (scan_keywords (lower s) issue_keywords issue_counts)
    | _ => Raise AttributeError
    end
  end.

Definition analyze_reviews (reviews : list review) : result analysis :=
  match reviews with
  | [] => Ok {| stats := {[ "total" := 0 ]}; issues := []; time_taken := Some 0 |}
  | _ :: _ =>
    let sentiments := sentiments_of reviews in
    let pos := count_label (lit "POSITIVE") sentiments in
    let neg := count_label (lit "NEGATIVE") sentiments in
    let neu := Z.of_nat (length reviews) - pos - neg in
    let negative_reviews := select_negative (zip reviews sentiments) in
    issue_counts ← tally_issues negative_reviews [];
    Ok {| stats := <[ "total" := Z.of_nat (length reviews) ]>
                   (<[ "positive" := pos ]>
                   (<[ "negative" := neg ]> {[ "neutral" := neu ]}));
          issues := take 5 (sorted_desc issue_counts);
          time_taken := None |}
  end.

Definition negative_reviews (reviews : list review) : list review :=
  select_negative (zip reviews (sentiments_of reviews)).

Definition negative_count (reviews : list review) : Z :=
  count_label (lit "NEGATIVE") (sentiments_of reviews).

(** The categories that the loop of lines 89-94 increments, one for each
    negative review that matches some category, in the order of the
    reviews. *)
Definition issue_sequence (negatives : list review) : list string :=
  omap (λ r, s ← text_of (content r); first_match (lower s) issue_keywords) negatives.

(** No review whose content is a list is labelled NEGATIVE.  So it is when
    every content is a [str] or [None]. *)
Definition no_negative_array (reviews : list review) : Prop :=
  ∀ r elements, r ∈ reviews → content r = JArray elements →
                sentiment_analyzer_batch (take 512 elements) ≠ Ok (lit "NEGATIVE").

(** The stats have the four counts, and these add up to the number of
    reviews. *)
Definition stats_sum_to_total (reviews : list review) (a : analysis) : Prop :=
  ∃ pos neg neu total,
    stats a !! "positive" = Some pos ∧ stats a !! "negative" = Some neg ∧
    stats a !! "neutral" = Some neu ∧ stats a !! "total" = Some total ∧
    total = Z.of_nat (length reviews) ∧ neu = total - pos - neg ∧
    pos + neg + neu = total.

End Analyzer.

(** ** Concrete collaborators, to run the definitions *)

Definition ascii_digit (c : char) : bool := (48 <=? c)%N && (c <=? 57)%N.

Definition ascii_lower (s : str) : str :=
  map (λ c : char, if (65 <=? c)%N && (c <=? 90)%N then (c + 32)%N else c) s.

Definition text_review (s : string) : review :=
  {| author := JNull; rating := JNull; date := JNull; content := JString (lit s);
     likes := JNull |}.

Definition always_negative (text : str) : result str := Ok (lit "NEGATIVE").

(** A model that fails on every list. *)
Definition no_batch (inputs : list json) : result str := Raise ModelError.

(** A model that takes the label of a list from its first element. *)
Definition first_of_batch (inputs : list json) : result str :=
  match inputs with
  | JString s :: _ => Ok (lit "NEGATIVE")
  | _ => Raise ModelError
  end.

(** A review whose content is the list [["bad"]]. *)
Definition array_review : review :=
  {| author := JNull; rating := JNumber (lit "1"); date := JNull;
     content := JArray [JString (lit "bad")]; likes := JNull |}.

(** A model that tells a text of 513 characters from every other text. *)
Definition length_sensitive (text : str) : result str :=
  if decide (length text = 513%nat) then Ok (lit "NEGATIVE") else Ok (lit "POSITIVE").

(** A product page whose first page has one review followed by a null item. *)
Definition sample_item : raw_item :=
  ItemObject (JString (lit "A.")) (JNumber (lit "5")) JNull (JString (lit "good"))
             (JNumber (lit "0")).

Definition broken_page (product_id : str) (page : Z) : page_response :=
  if decide (page = 1) then Items [sample_item; ItemOther] else Items [sample_item].


Definition product_url : str := lit "https://www.daraz.pk/products/phone-i4711-s1.html".
Definition plain_url : str := lit "https://www.daraz.pk/products/phone-id.html".

(** A model that fails on the empty text and finds everything else
    positive. *)
Definition fails_on_empty (text : str) : result str :=
  match text with
  | [] => Raise ModelError
  | _ :: _ => Ok (lit "POSITIVE")
  end.

Definition no_content_review : review :=
  {| author := JString (lit "B."); rating := JNumber (lit "1"); date := JNull;
     content := JNull; likes := JNull |}.

(** A review of 512 letters [a] followed by [tail]. *)
Definition long_review (tail : string) : review :=
  {| author := JNull; rating := JNull; date := JNull;
     content := JString (replicate 512 97%N ++ lit tail); likes := JNull |}.

(** [sum(1 for s in sentiments if s not in ('POSITIVE', 'NEGATIVE'))]: the
    labels that neither of the two counts of lines 73-74 sees. *)
Fixpoint count_other (sentiments : list str) : Z :=
  match sentiments with
  | [] => 0
  | s :: rest =>
    (if decide (s = lit "POSITIVE" ∨ s = lit "NEGATIVE") then 0 else 1) + count_other rest
  end.

(** ** RequestHandler: [analyze_product] *)

(** What can be raised inside [analyze_product]: the [HTTPException] of
    line 113 or 150, a failed subscript, a division by zero, what [print]
    raises when stdout does not take a line, or whatever leaves
    [analyze_reviews].  All of them are subclasses of [Exception]. *)
Inductive raised :=
  | HTTPException (status_code : Z) (detail : str)
  | KeyError (key : string)
  | ZeroDivisionError
  | UnicodeEncodeError
  | OSError
  | ValueError
  | Uncaught (e : exn).

Inductive outcome (A : Type) :=
  | Returns (a : A)
  | Raises (e : raised).
Arguments Returns {A} a.
Arguments Raises {A} e.

#[global] Instance outcome_bind : MBind outcome := λ A B f m,
  match m with
  | Returns a => f a
  | Raises e => Raises e
  end.

(** A call of [analyze_reviews] inside the handler. *)
Definition called {A} (m : result A) : outcome A :=
  match m with
  | Ok a => Returns a
  | Raise e => Raises (Uncaught e)
  end.

(** [d[key]] on a dict. *)
Definition getitem (d : gmap string Z) (key : string) : outcome Z :=
  match d !! key with
  | Some v => Returns v
  | None => Raises (KeyError key)
  end.

(** The ["sentiment"] dict of lines 134-140. *)
Record sentiment_block := SentimentBlock {
  positive : Z;
  negative : Z;
  neutral : Z;
  positive_percent : str;
  negative_percent : str
}.

(** One [{"issue": k, "count": v}] of lines 141-144. *)
Record issue_entry := IssueEntry {
  issue_name : string;
  issue_count : Z
}.

(** The ["data"] dict: in the answer of lines 119-126 it has the count (and
    an ["analysis"] key that is always [None]), in that of lines 130-147 it
    has the count and the three blocks. *)
Record response_data := ResponseData {
  reviews_count : Z;
  sentiment : option sentiment_block;
  common_issues : option (list issue_entry);
  sample_reviews : option (list review)
}.

Record response := Response {
  status : str;
  message : option str;
  data : response_data
}.

Section Handler.

Variable is_digit : char → bool.
Variable fetch : str → Z → page_response.
Variable sentiment_analyzer : str → result str.
Variable sentiment_analyzer_batch : list json → result str.
Variable lower : str → str.

(** [f"{n/d:.1%}"] for [d] other than 0: a float division and its
    formatting. *)
Variable format_percent : Z → Z → str.

(** [str(e)]. *)
Variable exception_text : raised → str.

(** [print(line)]: stdout takes the line, or [print] raises (a character
    that stdout cannot encode, a stream that is closed). *)
Variable print_line : str → outcome unit.

(** [str(e)] at line 49, for the exception that the page of a product
    raised. *)
Variable error_text : str → Z → str.

(** Line 49.  It stands in an [except] branch, so what [print] raises
    there leaves [get_daraz_reviews]. *)
Definition report_error (product_id : str) (page : Z) : outcome unit :=
  print_line (lit "Error fetching page " ++ lit (pretty page) ++ lit ": " ++
              error_text product_id page).

(** The loop of lines 29-50 with line 49 run on this stdout: [fetch_pages]
    as long as the line is taken, and the exception of [print], with the
    pages requested until then, when it is not. *)
Fixpoint fetch_pages_reporting (product_id : str) (n : nat) (page : Z)
    (reviews : list review) (log : list Z) : outcome (list review) * list Z :=
  match n with
  | O => (Returns reviews, log)
  | S n' =>
    let log' := log ++ [page] in
    match fetch product_id page with
    | FetchFailed =>
      match report_error product_id page with
      | Raises e => (Raises e, log')
      | Returns _ => fetch_pages_reporting product_id n' (page + 1) reviews log'
      end
    | Items items =>
      match append_items items reviews with
      | (reviews', Raise _) =>
        match report_error product_id page with
        | Raises e => (Raises e, log')
        | Returns _ => fetch_pages_reporting product_id n' (page + 1) reviews' log'
        end
      | (reviews', Ok _) =>
        match items with
        | [] => (Returns reviews', log')
        | _ :: _ => fetch_pages_reporting product_id n' (page + 1) reviews' log'
        end
      end
    end
  end.

(** [get_daraz_reviews(url, max_pages)] as called at line 116. *)
Definition get_daraz_reviews_reporting (url : str) (max_pages : Z)
    : outcome (list review) * list Z :=
  match re_search is_digit url with
  | None => (Returns [], [])
  | Some product_id => fetch_pages_reporting product_id (Z.to_nat max_pages) 1 [] []
  end.

(** [f"{n/d:.1%}"]. *)
Definition percent (n d : Z) : outcome str :=
  if decide (d = 0) then Raises ZeroDivisionError
  else Returns (format_percent n d).

(** The body of the [try], lines 112-147, with the pages requested. *)
Definition handle_request (url : str) (max_pages : Z) : outcome response * list Z :=
  if contains url (lit "daraz.pk") then
    match print_line (lit "Fetching reviews from: " ++ url) with
    | Raises e => (Raises e, [])
    | Returns _ =>
    let '(fetched, log) := get_daraz_reviews_reporting url max_pages in
    (reviews ← fetched;
     match reviews with
     | [] =>
       Returns {| status := lit "success";
                  message := Some (lit "No reviews found");
                  data := {| reviews_count := 0; sentiment := None;
                             common_issues := None; sample_reviews := None |} |}
     | _ :: _ =>
       analysis ← called (analyze_reviews sentiment_analyzer sentiment_analyzer_batch
                            lower reviews);
       let n := Z.of_nat (length reviews) in
       pos ← getitem (stats analysis) "positive";
       neg ← getitem (stats analysis) "negative";
       neu ← getitem (stats analysis) "neutral";
       pos_percent ← (p ← getitem (stats analysis) "positive"; percent p n);
       neg_percent ← (p ← getitem (stats analysis) "negative"; percent p n);
       Returns {| status := lit "success";
                  message := None;
                  data := {| reviews_count := n;
                             sentiment := Some {| positive := pos; negative := neg;
                                                  neutral := neu;
                                                  positive_percent := pos_percent;
                                                  negative_percent := neg_percent |};
                             common_issues :=
                               Some (map (λ kv, {| issue_name := kv.1; issue_count := kv.2 |})
                                         (issues analysis));
                             sample_reviews := Some (take 3 reviews) |} |}
     end, log)
    end
  else (Raises (HTTPException 400 (lit "Invalid Daraz URL")), []).

(** [analyze_product(url, max_pages)]: the [except Exception] of line 149
    catches whatever the body raises, the [HTTPException] of line 113
    included, and raises a 500 with its text. *)
Definition analyze_product (url : str) (max_pages : Z) : outcome response * list Z :=
  let '(out, log) := handle_request url max_pages in
  (match out with
   | Returns r => Returns r
   | Raises e => Raises (HTTPException 500 (exception_text e))
   end, log).

End Handler.

(** Stand-ins for the float formatting, for [str(e)] and for stdout. *)
Definition ratio_text (n d : Z) : str :=
  if decide (n = d) then lit "100.0%" else if decide (n = 0) then lit "0.0%" else lit "..%".

(** [str(e)]: for an [HTTPException] the status code, a colon and the
    detail; a placeholder for the exceptions whose text depends on the
    value at hand. *)
Definition detail_text (e : raised) : str :=
  match e with
  | HTTPException status_code detail => lit (pretty status_code) ++ lit ": " ++ detail
  | KeyError key => lit "'" ++ lit key ++ lit "'"
  | ZeroDivisionError => lit "division by zero"
  | UnicodeEncodeError => lit "codec can't encode character"
  | OSError => lit "I/O error"
  | ValueError => lit "I/O operation on closed file."
  | Uncaught AttributeError => lit "'list' object has no attribute 'lower'"
  | Uncaught _ => lit "error"
  end.

(** A stdout that takes every line. *)
Definition prints_all (line : str) : outcome unit := Returns tt.

(** A stdout that takes ASCII only. *)
Definition prints_ascii (line : str) : outcome unit :=
  if forallb (λ c, (c <? 128)%N) line then Returns tt else Raises UnicodeEncodeError.

(** Every failed page failed with a timeout. *)
Definition timeout_text (product_id : str) (page : Z) : str := lit "Read timed out.".

(** Every failed page failed with a message that is not ASCII. *)
Definition accented_text (product_id : str) (page : Z) : str :=
  lit "Connexion refus" ++ [233%N].

(** A url of the marketplace that ends in a lone surrogate. *)
Definition surrogate_url : str := lit "https://www.daraz.pk/p-i1" ++ [55296%N].


(** Every page has the same two reviews. *)
Definition two_per_page (product_id : str) (page : Z) : page_response :=
  Items [ItemObject JNull (JNumber (lit "1")) JNull
                    (JString (lit "Too EXPENSIVE, poor support")) JNull;
         ItemObject (JString (lit "C.")) (JNumber (lit "2")) JNull
                    (JString (lit "slow shipping")) JNull].

Definition always_fails (product_id : str) (page : Z) : page_response := FetchFailed.

(** * Properties of the fetcher *)

Section FetcherProperties.

Variable is_digit : char → bool.
Variable fetch : str → Z → page_response.

Local Abbreviation get := (get_daraz_reviews is_digit fetch).
Local Abbreviation loop := (fetch_pages fetch).

Lemma starts_with_app (p s : str) : starts_with p (p ++ s) = true.
Proof.
  induction p as [|a p IH]; simpl; [done|].
  rewrite N.eqb_refl. exact IH.
Qed.

Lemma starts_with_inv (p s : str) :
  starts_with p s = true → ∃ t, s = p ++ t.
Proof.
  revert s. induction p as [|a p IH]; intros s H.
  - by exists s.
  - destruct s as [|b s]; simpl in H; [done|].
    apply andb_true_iff in H as [Hab Hp].
    apply N.eqb_eq in Hab as ->.
    destruct (IH _ Hp) as [t ->]. by exists t.
Qed.

Lemma match_here_None_inv (s : str) d post :
  match_here is_digit s = None → s = lit "-i" ++ d :: post → is_digit d = false.
Proof.
  intros H ->. unfold match_here in H.
  rewrite starts_with_app in H. simpl in H.
  destruct (is_digit d); [discriminate|done].
Qed.

Lemma match_here_Some_inv (s g : str) :
  match_here is_digit s = Some g →
  ∃ d post, s = lit "-i" ++ d :: post ∧ is_digit d = true.
Proof.
  unfold match_here. destruct (starts_with (lit "-i") s) eqn:Hp; [|done].
  apply starts_with_inv in Hp as [t ->]. simpl.
  destruct t as [|d t]; simpl; [done|].
  destruct (is_digit d) eqn:Hd; [|done].
  intros _. by exists d, t.
Qed.

Lemma re_search_Some_pattern (url g : str) :
  re_search is_digit url = Some g → has_product_pattern is_digit url.
Proof.
  induction url as [|c url IH]; simpl.
  - destruct (match_here is_digit []) eqn:Hm; [|done].
    intros _. apply match_here_Some_inv in Hm as (d & post & Heq & Hd).
    exists [], d, post. done.
  - destruct (match_here is_digit (c :: url)) eqn:Hm.
    + intros _. apply match_here_Some_inv in Hm as (d & post & Heq & Hd).
      exists [], d, post. done.
    + intros H. destruct (IH H) as (pre & d & post & -> & Hd).
      exists (c :: pre), d, post. done.
Qed.

Lemma re_search_None_no_pattern (url : str) :
  re_search is_digit url = None → ¬ has_product_pattern is_digit url.
Proof.
  intros H (pre & d & post & -> & Hd).
  induction pre as [|c pre IH].
  - simpl in H. destruct (match_here is_digit _) eqn:Hm; [done|].
    eapply (match_here_None_inv _ d post) in Hm; [congruence|done].
  - apply IH. simpl in H.
    destruct (match_here is_digit (c :: _)); [done|]. exact H.
Qed.

(** The search finds a product id exactly when the url has the pattern. *)
Lemma re_search_None_iff (url : str) :
  re_search is_digit url = None ↔ ¬ has_product_pattern is_digit url.
Proof.
  split; [apply re_search_None_no_pattern|].
  intros Hno. destruct (re_search is_digit url) eqn:H; [|done].
  destruct Hno. by eapply re_search_Some_pattern.
Qed.

(** C7: a url that has no [-i<digits>] segment gives the empty list, and no
    page is requested. *)
Theorem no_product_id_no_reviews (url : str) (max_pages : Z) :
  ¬ has_product_pattern is_digit url →
  get url max_pages = ([], []).
Proof.
  intros H. apply re_search_None_iff in H.
  unfold get_daraz_reviews. by rewrite H.
Qed.

(** ** The page loop *)

Lemma append_items_parsed (items : list raw_item) (reviews : list review) :
  (append_items items reviews).1 = reviews ++ parsed_items items.
Proof.
  revert reviews. induction items as [|[a r d c l|] items IH]; intros reviews; simpl.
  - by rewrite app_nil_r.
  - rewrite IH. by rewrite <- app_assoc.
  - by rewrite app_nil_r.
Qed.

Lemma append_items_status (items : list raw_item) (reviews : list review) :
  (append_items items reviews).2 = Ok tt ∨
  ((append_items items reviews).2 = Raise AttributeError ∧ ItemOther ∈ items).
Proof.
  revert reviews. induction items as [|[a r d c l|] items IH]; intros reviews; simpl.
  - by left.
  - destruct (IH (reviews ++ [to_review a r d c l])) as [H|[H Hin]]; [by left|].
    right. split; [done|]. apply elem_of_cons. by right.
  - right. split; [done|]. apply elem_of_cons. by left.
Qed.

(** One iteration: an empty [items] leaves the loop, anything else goes on
    to the next page with what the page appended. *)
Lemma fetch_pages_step (pid : str) (n : nat) (page : Z) reviews log :
  loop pid (S n) page reviews log =
    if decide (fetch pid page = Items []) then (reviews, log ++ [page])
    else loop pid n (page + 1) (reviews ++ page_reviews (fetch pid page)) (log ++ [page]).
Proof.
  simpl. destruct (fetch pid page) as [|items] eqn:Hf.
  - rewrite decide_False by done. simpl. by rewrite app_nil_r.
  - destruct items as [|it items].
    + rewrite decide_True by done. done.
    + rewrite decide_False by done.
      pose proof (append_items_parsed (it :: items) reviews) as Hp.
      destruct (append_items (it :: items) reviews) as [reviews' [[]|e]];
        simpl in Hp; by subst reviews'.
Qed.








End FetcherProperties.

Lemma no_product_id_no_reviews_witness :
  get_daraz_reviews ascii_digit broken_page plain_url 3 = ([], []).
Proof.
  apply (no_product_id_no_reviews ascii_digit broken_page plain_url 3).
  apply re_search_None_iff. vm_compute. reflexivity.
Defined.




(** * Properties of the analyzer *)

Section AnalyzerProperties.

Variable sentiment_analyzer : str → result str.
Variable sentiment_analyzer_batch : list json → result str.
Variable lower : str → str.

Local Abbreviation label := (sentiment_of sentiment_analyzer sentiment_analyzer_batch).
Local Abbreviation labels := (sentiments_of sentiment_analyzer sentiment_analyzer_batch).
Local Abbreviation negatives :=
  (negative_reviews sentiment_analyzer sentiment_analyzer_batch).
Local Abbreviation n_negative :=
  (negative_count sentiment_analyzer sentiment_analyzer_batch).
Local Abbreviation tally := (tally_issues lower).
Local Abbreviation analyze :=
  (analyze_reviews sentiment_analyzer sentiment_analyzer_batch lower).
Local Abbreviation no_array := (no_negative_array sentiment_analyzer_batch).
Local Abbreviation has_text := (λ r : review, is_Some (text_of (content r))).

(** ** The sentiment loop *)

Lemma sentiments_of_app (l1 l2 : list review) :
  labels (l1 ++ l2) = labels l1 ++ labels l2.
Proof. induction l1 as [|r l1 IH]; simpl; [done|]. by rewrite IH. Qed.

Lemma sentiments_of_length (reviews : list review) :
  length (labels reviews) = length reviews.
Proof. induction reviews as [|r l IH]; simpl; [done|]. by rewrite IH. Qed.

Lemma count_label_app (lbl : str) (l1 l2 : list str) :
  count_label lbl (l1 ++ l2) = count_label lbl l1 + count_label lbl l2.
Proof. induction l1 as [|s l1 IH]; simpl; [done|]. rewrite IH. lia. Qed.

Lemma count_label_nonneg (lbl : str) (l : list str) : 0 ≤ count_label lbl l.
Proof. induction l as [|s l IH]; simpl; [done|]. case_decide; lia. Qed.

(** Two different labels count disjoint sets of reviews. *)
Lemma count_label_disjoint (a b : str) (l : list str) :
  a ≠ b → count_label a l + count_label b l ≤ Z.of_nat (length l).
Proof.
  intros Hab. induction l as [|s l IH]; simpl; [done|].
  repeat case_decide; subst; try done; lia.
Qed.

Lemma negative_reviews_cons (r : review) (reviews : list review) :
  negatives (r :: reviews) =
    if decide (label r = lit "NEGATIVE") then r :: negatives reviews
    else negatives reviews.
Proof. reflexivity. Qed.

Lemma negative_reviews_app (l1 l2 : list review) :
  negatives (l1 ++ l2) = negatives l1 ++ negatives l2.
Proof.
  induction l1 as [|r l1 IH]; [done|].
  rewrite <- app_comm_cons, !negative_reviews_cons, IH. by case_decide.
Qed.

Lemma negative_count_length (reviews : list review) :
  n_negative reviews = Z.of_nat (length (negatives reviews)).
Proof.
  induction reviews as [|r l IH]; [done|].
  rewrite negative_reviews_cons. unfold negative_count in *. simpl.
  rewrite IH. case_decide; simpl; lia.
Qed.

(** A review is labelled NEGATIVE only by the model, which is called only
    on a content that took the slice: a text, or a list. *)
Lemma negative_label_content (r : review) :
  label r = lit "NEGATIVE" →
  has_text r ∨
  ∃ elements, content r = JArray elements ∧
              sentiment_analyzer_batch (take 512 elements) = Ok (lit "NEGATIVE").
Proof.
  unfold sentiment_of, classify.
  destruct (content r) as [|b|n|s|elements|members] eqn:Hc; simpl;
    try (intros H; vm_compute in H; discriminate).
  - intros _. left. by eexists.
  - intros H. right. exists elements. split; [done|].
    by destruct (sentiment_analyzer_batch (take 512 elements)) as [lbl|e]; simplify_eq/=.
Qed.

Lemma negative_reviews_subset (reviews : list review) (r : review) :
  r ∈ negatives reviews → r ∈ reviews ∧ label r = lit "NEGATIVE".
Proof.
  induction reviews as [|r' l IH]; [by intros ?%elem_of_nil|].
  rewrite negative_reviews_cons. case_decide as Hl.
  - intros [->|Hin]%elem_of_cons.
    + split; [apply elem_of_cons; by left|done].
    + destruct (IH Hin). split; [apply elem_of_cons; by right|done].
  - intros Hin. destruct (IH Hin). split; [apply elem_of_cons; by right|done].
Qed.

(** When no list is labelled NEGATIVE, the negative reviews have a text. *)
Lemma negative_reviews_content (reviews : list review) :
  no_array reviews →
  Forall (λ r, label r = lit "NEGATIVE" ∧ has_text r) (negatives reviews).
Proof.
  intros Hno. apply Forall_forall. intros r [Hin Hl]%negative_reviews_subset.
  split; [done|].
  destruct (negative_label_content r Hl) as [?|(elements & Hc & Hb)]; [done|].
  by destruct (Hno r elements Hin Hc).
Qed.

(** Contents that are texts or [None] have no list among them. *)
Lemma text_contents_no_negative_array (reviews : list review) :
  Forall (λ r, content r = JNull ∨ has_text r) reviews → no_array reviews.
Proof.
  intros H r elements Hin Hc. rewrite Forall_forall in H.
  destruct (H r Hin) as [Hn|[s Hs]]; rewrite Hc in *; discriminate.
Qed.

Lemma no_negative_array_text (reviews : list review) :
  no_array reviews → Forall has_text (negatives reviews).
Proof.
  intros Hno. eapply Forall_impl; [by apply negative_reviews_content|].
  by intros r [_ ?].
Qed.

(** ** The issue loop *)

Lemma scan_keywords_first_match (s : str) table counts :
  scan_keywords s table counts =
    match first_match s table with
    | Some issue => incr issue counts
    | None => counts
    end.
Proof.
  induction table as [|[issue kws] table IH]; simpl; [done|].
  by destruct (any_keyword s kws).
Qed.

Lemma text_of_Some (v : json) (s : str) : text_of v = Some s → v = JString s.
Proof. destruct v; simpl; congruence. Qed.

(** With a text in every content the loop runs to its end; what it computes
    is one increment for each element of [issue_sequence]. *)
Lemma tally_issues_Ok (negs : list review) counts :
  Forall has_text negs →
  tally negs counts =
    Ok (foldl (λ c issue, incr issue c) counts (issue_sequence lower negs)).
Proof.
  intros H. revert counts. induction H as [|r negs [s Hs] _ IH]; intros counts.
  - done.
  - cbn [tally_issues]. unfold issue_sequence. cbn [omap list_omap]. rewrite Hs.
    apply text_of_Some in Hs. rewrite Hs, IH, scan_keywords_first_match.
    cbn [mbind option_bind].
    by destruct (first_match (lower s) issue_keywords).
Qed.

(** The loop returns only when every content has a text. *)
Lemma tally_issues_inv (negs : list review) counts counts' :
  tally negs counts = Ok counts' → Forall has_text negs.
Proof.
  revert counts. induction negs as [|r negs IH]; intros counts; [constructor|].
  cbn [tally_issues]. destruct (content r) eqn:Hc; try done.
  intros H. constructor; [|by eapply IH]. rewrite Hc. by eexists.
Qed.


Lemma tally_negatives_Ok (reviews : list review) counts :
  no_array reviews →
  tally (negatives reviews) counts =
    Ok (foldl (λ c issue, incr issue c) counts
          (issue_sequence lower (negatives reviews))).
Proof. intros Hno. by apply tally_issues_Ok, no_negative_array_text. Qed.

(** What [analyze_reviews] returns on a list that is not empty, when the
    issue loop runs to its end. *)
Lemma analyze_reviews_nonempty (reviews : list review) :
  reviews ≠ [] →
  Forall has_text (negatives reviews) →
  analyze reviews =
    Ok {| stats := <[ "total" := Z.of_nat (length reviews) ]>
                   (<[ "positive" := count_label (lit "POSITIVE") (labels reviews) ]>
                   (<[ "negative" := n_negative reviews ]>
                   {[ "neutral" := Z.of_nat (length reviews)
                                   - count_label (lit "POSITIVE") (labels reviews)
                                   - n_negative reviews ]}));
          issues := take 5 (sorted_desc
                      (foldl (λ c issue, incr issue c) []
                         (issue_sequence lower (negatives reviews))));
          time_taken := None |}.
Proof.
  intros Hne Htext. destruct reviews as [|r l]; [done|].
  unfold analyze_reviews.
  change (select_negative (zip (r :: l) (labels (r :: l)))) with (negatives (r :: l)).
  by rewrite tally_issues_Ok.
Qed.

(** [analyze_reviews] returns exactly when the issue loop does. *)
Lemma analyze_reviews_inv (reviews : list review) (a : analysis) :
  analyze reviews = Ok a → Forall has_text (negatives reviews).
Proof.
  destruct reviews as [|r l]; [constructor|].
  unfold analyze_reviews.
  change (select_negative (zip (r :: l) (labels (r :: l)))) with (negatives (r :: l)).
  destruct (tally (negatives (r :: l)) []) as [counts|e] eqn:Ht; [|done].
  intros _. by eapply tally_issues_inv.
Qed.


Lemma analyze_reviews_returns (reviews : list review) :
  Forall has_text (negatives reviews) → ∃ a, analyze reviews = Ok a.
Proof.
  intros Htext. destruct reviews as [|r l]; [by eexists|].
  rewrite analyze_reviews_nonempty by done. by eexists.
Qed.

(** C10, as amended: when no review whose content is a list is labelled
    NEGATIVE, every review that reaches the issue loop has a text, so
    lower-casing it does not raise: the loop returns its counts, and so
    does [analyze_reviews].  A content of [None] never reaches the loop, nor
    does any content that does not take the slice. *)
Theorem issue_loop_never_raises (reviews : list review) :
  no_array reviews →
  Forall has_text (negatives reviews) ∧
  (∀ counts, ∃ counts', tally (negatives reviews) counts = Ok counts') ∧
  (∃ a, analyze reviews = Ok a).
Proof.
  intros Hno. split; [|split].
  - by apply no_negative_array_text.
  - intros counts. rewrite tally_negatives_Ok by done. by eexists.
  - by apply analyze_reviews_returns, no_negative_array_text.
Qed.

(** C1, as amended: on a list that is not empty the stats that
    [analyze_reviews] returns have the four counts; neutral is total -
    positive - negative, none of the counts is negative, and positive +
    negative + neutral is the number of reviews.  It returns when no list
    is labelled NEGATIVE. *)
Theorem counts_sum_to_total (reviews : list review) :
  reviews ≠ [] →
  (∀ a, analyze reviews = Ok a →
        stats_sum_to_total reviews a ∧ ∀ k v, stats a !! k = Some v → 0 ≤ v) ∧
  (no_array reviews → ∃ a, analyze reviews = Ok a).
Proof.
  intros Hne. split; [|by intros ?; apply analyze_reviews_returns, no_negative_array_text].
  intros a Ha. pose proof (analyze_reviews_inv _ _ Ha) as Htext.
  rewrite analyze_reviews_nonempty in Ha by done. injection Ha as <-.
  pose proof (count_label_nonneg (lit "POSITIVE") (labels reviews)) as Hp.
  pose proof (count_label_nonneg (lit "NEGATIVE") (labels reviews)) as Hn.
  pose proof (count_label_disjoint (lit "POSITIVE") (lit "NEGATIVE") (labels reviews)) as Hd.
  rewrite sentiments_of_length in Hd.
  assert (lit "POSITIVE" ≠ lit "NEGATIVE") as Hpn by (vm_compute; discriminate).
  specialize (Hd Hpn). unfold negative_count in *.
  split.
  - eexists _, _, _, _. cbn [stats]. split_and!; try by simplify_map_eq. lia.
  - cbn [stats]. intros k v Hkv.
    destruct (decide (k = "total")) as [->|]; [simplify_map_eq; lia|].
    destruct (decide (k = "positive")) as [->|]; [simplify_map_eq; lia|].
    destruct (decide (k = "negative")) as [->|]; [simplify_map_eq; lia|].
    destruct (decide (k = "neutral")) as [->|]; simplify_map_eq; lia.
Qed.

(** C6: a review whose classification raises, because it has no content,
    because the model fails on it, or for any other reason, is labelled
    NEUTRAL; the labels of the reviews before and after it are what they
    are without it, and the analysis of the whole list returns, as long as
    the other reviews let the issue loop run: whenever the list without the
    review is analysed, so is the list with it. *)
Theorem failed_classification_is_neutral (l1 l2 : list review) (r : review) :
  (content r = JNull ∨
   (∃ s e, content r = JString s ∧ sentiment_analyzer (take 512 s) = Raise e) ∨
   (∃ e, classify sentiment_analyzer sentiment_analyzer_batch r = Raise e)) →
  label r = lit "NEUTRAL" ∧
  labels (l1 ++ r :: l2) = labels l1 ++ lit "NEUTRAL" :: labels l2 ∧
  (∀ a, analyze (l1 ++ r :: l2) = Ok a →
        stats a !! "total" = Some (Z.of_nat (length (l1 ++ r :: l2)))) ∧
  (no_array (l1 ++ l2) →
   ∃ a, analyze (l1 ++ r :: l2) = Ok a ∧
        stats a !! "total" = Some (Z.of_nat (length (l1 ++ r :: l2)))) ∧
  (∀ a', analyze (l1 ++ l2) = Ok a' →
         ∃ a, analyze (l1 ++ r :: l2) = Ok a ∧
              stats a !! "total" = Some (Z.of_nat (length (l1 ++ r :: l2)))).
Proof.
  intros Hfail.
  assert (label r = lit "NEUTRAL") as Hr.
  { unfold sentiment_of, classify.
    destruct Hfail as [->|[(s & e & -> & ->)|[e He]]]; [done..|].
    unfold classify in He. by rewrite He. }
  assert (∀ a, analyze (l1 ++ r :: l2) = Ok a →
               stats a !! "total" = Some (Z.of_nat (length (l1 ++ r :: l2)))) as Htotal.
  { intros a Ha. pose proof (analyze_reviews_inv _ _ Ha) as Htext.
    rewrite analyze_reviews_nonempty in Ha by (done || by destruct l1).
    injection Ha as <-. cbn [stats]. by simplify_map_eq. }
  assert (negatives (l1 ++ r :: l2) = negatives (l1 ++ l2)) as Hneg.
  { rewrite !negative_reviews_app, negative_reviews_cons.
    by rewrite decide_False by (rewrite Hr; vm_compute; discriminate). }
  split; [done|]. split; [|split; [done|split]].
  - rewrite sentiments_of_app. simpl. by rewrite Hr.
  - intros Hno.
    destruct (analyze_reviews_returns (l1 ++ r :: l2)) as [a Ha]; [|by eauto].
    rewrite Hneg. by apply no_negative_array_text.
  - intros a' Ha'.
    destruct (analyze_reviews_returns (l1 ++ r :: l2)) as [a Ha]; [|by eauto].
    rewrite Hneg. by eapply analyze_reviews_inv.
Qed.


(** ** Counting issues *)

Lemma count_of_incr_eq (issue : string) counts :
  count_of issue (incr issue counts) = count_of issue counts + 1.
Proof.
  induction counts as [|[k v] counts IH]; simpl.
  - by rewrite decide_True.
  - destruct (decide (k = issue)) as [->|Hne]; simpl.
    + by rewrite decide_True.
    + by rewrite decide_False.
Qed.

Lemma count_of_incr_ne (issue other : string) counts :
  other ≠ issue → count_of other (incr issue counts) = count_of other counts.
Proof.
  intros Hne. induction counts as [|[k v] counts IH]; simpl.
  - by rewrite decide_False by congruence.
  - destruct (decide (k = issue)) as [->|Hk]; simpl.
    + by rewrite !decide_False by congruence.
    + by rewrite IH.
Qed.

Lemma sum_counts_incr (issue : string) counts :
  sum_counts (incr issue counts) = sum_counts counts + 1.
Proof.
  induction counts as [|[k v] counts IH]; simpl; [done|].
  case_decide; simpl; lia.
Qed.

Lemma incr_positive (issue : string) counts :
  Forall (λ kv, 0 < kv.2) counts → Forall (λ kv, 0 < kv.2) (incr issue counts).
Proof.
  induction 1 as [|[k v] counts Hv Hrest IH]; simpl.
  - by repeat constructor.
  - simpl in Hv. case_decide; constructor; simpl; auto with lia.
Qed.

Lemma sum_counts_foldl (cats : list string) counts :
  sum_counts (foldl (λ c issue, incr issue c) counts cats) =
    sum_counts counts + Z.of_nat (length cats).
Proof.
  revert counts. induction cats as [|k cats IH]; intros counts; simpl; [lia|].
  rewrite IH, sum_counts_incr. lia.
Qed.

Lemma foldl_incr_positive (cats : list string) counts :
  Forall (λ kv, 0 < kv.2) counts →
  Forall (λ kv, 0 < kv.2) (foldl (λ c issue, incr issue c) counts cats).
Proof.
  revert counts. induction cats as [|k cats IH]; intros counts H; simpl; [done|].
  by apply IH, incr_positive.
Qed.

Lemma first_match_lookup (s : str) table (i : nat) issue kws :
  table !! i = Some (issue, kws) →
  any_keyword s kws = true →
  (∀ h c ks, (h < i)%nat → table !! h = Some (c, ks) → any_keyword s ks = false) →
  first_match s table = Some issue.
Proof.
  revert i. induction table as [|[c ks] table IH]; intros i Hi Hany Hfirst; [done|].
  destruct i as [|i]; simpl in *.
  - injection Hi as -> ->. by rewrite Hany.
  - rewrite (Hfirst 0%nat c ks) by (done || lia).
    apply (IH i); [done..|].
    intros h c' ks' Hh Hl. apply (Hfirst (S h) c' ks'); [lia|done].
Qed.

Lemma first_match_None (s : str) table :
  (∀ issue kws, (issue, kws) ∈ table → any_keyword s kws = false) →
  first_match s table = None.
Proof.
  induction table as [|[c ks] table IH]; intros H; simpl; [done|].
  rewrite (H c ks) by (apply elem_of_cons; by left).
  apply IH. intros issue kws Hin. apply (H issue kws). apply elem_of_cons. by right.
Qed.

Lemma issue_keywords_NoDup : NoDup (issue_keywords.*1).
Proof. apply (bool_decide_unpack _). vm_compute. exact I. Qed.

(** C3: a review with keywords of two categories (or more) is counted for
    one category, the one that comes first in the declared order: its
    count goes up by one, every other count stays, that of the second
    category included. *)
Theorem first_category_wins (r : review) (s : str) (rest : list review)
    (counts : list (string * Z)) (i j : nat) (a b : string) (kws_a kws_b : list str) :
  content r = JString s →
  issue_keywords !! i = Some (a, kws_a) →
  issue_keywords !! j = Some (b, kws_b) →
  (i < j)%nat →
  any_keyword (lower s) kws_a = true →
  any_keyword (lower s) kws_b = true →
  (∀ h c kws, (h < i)%nat → issue_keywords !! h = Some (c, kws) →
              any_keyword (lower s) kws = false) →
  scan_keywords (lower s) issue_keywords counts = incr a counts ∧
  tally (r :: rest) counts = tally rest (incr a counts) ∧
  count_of a (incr a counts) = count_of a counts + 1 ∧
  count_of b (incr a counts) = count_of b counts ∧
  (∀ c, c ≠ a → count_of c (incr a counts) = count_of c counts) ∧
  sum_counts (incr a counts) = sum_counts counts + 1.
Proof.
  intros Hs Hi Hj Hij Ha Hb Hfirst.
  assert (scan_keywords (lower s) issue_keywords counts = incr a counts) as Hscan.
  { rewrite scan_keywords_first_match.
    by rewrite (first_match_lookup _ _ i a kws_a). }
  assert (b ≠ a) as Hba.
  { intros ->. assert (i = j); [|lia].
    eapply NoDup_lookup; [apply issue_keywords_NoDup|..];
      rewrite list_lookup_fmap; [by rewrite Hi|by rewrite Hj]. }
  split_and!.
  - done.
  - cbn [tally_issues]. by rewrite Hs, Hscan.
  - apply count_of_incr_eq.
  - by apply count_of_incr_ne.
  - intros c Hc. by apply count_of_incr_ne.
  - apply sum_counts_incr.
Qed.

(** ** Sorting the counts *)

Lemma sum_counts_insert_desc x l :
  sum_counts (insert_desc x l) = x.2 + sum_counts l.
Proof.
  induction l as [|[k v] l IH]; destruct x as [kx vx]; simpl in *; [done|].
  destruct (v <=? vx); simpl; [done|]. rewrite IH. lia.
Qed.

Lemma sum_counts_sorted_desc l : sum_counts (sorted_desc l) = sum_counts l.
Proof.
  induction l as [|[k v] l IH]; simpl; [done|].
  rewrite sum_counts_insert_desc, IH. done.
Qed.

Lemma insert_desc_Permutation x l : insert_desc x l ≡ₚ x :: l.
Proof.
  induction l as [|y l IH]; simpl; [done|].
  destruct (y.2 <=? x.2); [done|]. rewrite IH. apply Permutation_swap.
Qed.

Lemma sorted_desc_Permutation l : sorted_desc l ≡ₚ l.
Proof.
  induction l as [|x l IH]; simpl; [done|].
  by rewrite insert_desc_Permutation, IH.
Qed.

(** Items of one count come out in the order they went in. *)
Lemma insert_desc_stable (c : Z) x l :
  filter (λ y, y.2 = c) (insert_desc x l) = filter (λ y, y.2 = c) (x :: l).
Proof.
  induction l as [|y l IH]; simpl; [done|].
  destruct (y.2 <=? x.2) eqn:Hle; [done|]. apply Z.leb_gt in Hle.
  rewrite !filter_cons in *.
  destruct (decide (x.2 = c)), (decide (y.2 = c)); try lia; by rewrite IH.
Qed.

Lemma sorted_desc_stable (c : Z) l :
  filter (λ y, y.2 = c) (sorted_desc l) = filter (λ y, y.2 = c) l.
Proof.
  induction l as [|x l IH]; simpl; [done|].
  rewrite insert_desc_stable, !filter_cons, IH. done.
Qed.

Lemma sum_counts_take (n : nat) l :
  Forall (λ kv, 0 < kv.2) l → sum_counts (take n l) ≤ sum_counts l.
Proof.
  intros H. revert n. induction H as [|[k v] l Hv _ IH]; intros [|n]; simpl in *; try lia.
  - assert (0 ≤ sum_counts l); [|lia].
    specialize (IH 0%nat). by rewrite take_0 in IH.
  - specialize (IH n). lia.
Qed.

Section Stable.

(** The order the items come in. *)
Variable before : relation (string * Z).

Local Abbreviation desc_then_before := (desc_then before).

Lemma insert_desc_sorted x l :
  Forall (before x) l →
  StronglySorted desc_then_before l →
  StronglySorted desc_then_before (insert_desc x l).
Proof.
  intros Hx Hl. induction Hl as [|y l Hl IH Hy]; simpl.
  - by repeat constructor.
  - apply Forall_cons in Hx as [Hxy Hx].
    destruct (y.2 <=? x.2) eqn:Hle.
    + apply Z.leb_le in Hle.
      constructor; [by constructor|].
      constructor.
      * unfold desc_then. destruct (decide (y.2 = x.2)); [by right|left; lia].
      * rewrite Forall_forall in Hy, Hx. apply Forall_forall. intros z Hz.
        specialize (Hy z Hz). specialize (Hx z Hz).
        unfold desc_then in *.
        destruct (decide (z.2 = x.2)); [by right|left; lia].
    + apply Z.leb_gt in Hle.
      constructor; [by apply IH|].
      rewrite insert_desc_Permutation. constructor; [|done].
      left. done.
Qed.

(** The sort is stable: it puts the counts in descending order and leaves
    items of equal count in the order they came in. *)
Lemma sorted_desc_sorted l :
  StronglySorted before l → StronglySorted desc_then_before (sorted_desc l).
Proof.
  induction 1 as [|x l Hl IH Hx]; simpl; [constructor|].
  apply insert_desc_sorted; [|done].
  by rewrite sorted_desc_Permutation.
Qed.

End Stable.

(** ** The order of insertion into [issue_counts] *)

Lemma incr_keys (issue : string) counts :
  (incr issue counts).*1 =
    if decide (issue ∈ counts.*1) then counts.*1 else counts.*1 ++ [issue].
Proof.
  induction counts as [|[k v] counts IH].
  - done.
  - cbn [incr]. destruct (decide (k = issue)) as [->|Hk].
    + rewrite decide_True; [done|]. apply elem_of_cons. by left.
    + rewrite !fmap_cons, IH. cbn [fst].
      destruct (decide (issue ∈ counts.*1)) as [Hin|Hin].
      * rewrite decide_True; [done|]. apply elem_of_cons. by right.
      * rewrite decide_False; [done|]. rewrite elem_of_cons. by intros [?|?].
Qed.

Lemma first_index_app_l (a : string) (l1 l2 : list string) :
  a ∈ l1 → first_index a (l1 ++ l2) = first_index a l1.
Proof.
  induction l1 as [|k l1 IH]; simpl; [by intros ?%elem_of_nil|].
  intros Hin. case_decide; [done|]. f_equal. apply IH.
  by apply elem_of_cons in Hin as [->|].
Qed.

Lemma first_index_lt (a : string) (l : list string) :
  a ∈ l → (first_index a l < length l)%nat.
Proof.
  induction l as [|k l IH]; simpl; [by intros ?%elem_of_nil|].
  intros Hin. case_decide; [lia|].
  apply elem_of_cons in Hin as [->|Hin]; [done|]. specialize (IH Hin). lia.
Qed.

Lemma first_index_fresh (a : string) (l : list string) :
  a ∉ l → first_index a (l ++ [a]) = length l.
Proof.
  induction l as [|k l IH]; simpl.
  - intros _. by rewrite decide_True.
  - intros Hin. apply not_elem_of_cons in Hin as [Hne Hin].
    rewrite decide_False by done. by rewrite IH.
Qed.

Lemma StronglySorted_among {A} (R R' : relation A) (l : list A) :
  (∀ x y, x ∈ l → y ∈ l → R x y → R' x y) →
  StronglySorted R l → StronglySorted R' l.
Proof.
  intros HR H. induction H as [|x l Hl IH Hx]; [constructor|].
  constructor.
  - apply IH. intros y z Hy Hz. apply HR; apply elem_of_cons; by right.
  - rewrite Forall_forall in Hx. apply Forall_forall. intros y Hy.
    apply HR; [apply elem_of_cons; by left|apply elem_of_cons; by right|by apply Hx].
Qed.

Lemma StronglySorted_on_keys (R : relation string) (l : list (string * Z)) :
  StronglySorted R (l.*1) → StronglySorted (λ x y, R x.1 y.1) l.
Proof.
  induction l as [|x l IH]; [constructor|].
  rewrite fmap_cons. intros [Hx Hl]%StronglySorted_cons.
  constructor; [by apply IH|]. exact (proj1 (Forall_fmap _ _ _) Hx).
Qed.

(** The keys of [issue_counts] are the categories met, each once, in the
    order in which they were met first. *)
Lemma foldl_incr_keys (cats : list string) :
  let keys := (foldl (λ c issue, incr issue c) [] cats).*1 in
  (∀ a, a ∈ keys ↔ a ∈ cats) ∧
  StronglySorted (λ a b, (first_index a cats < first_index b cats)%nat) keys.
Proof.
  induction cats as [|k cats IH] using rev_ind; simpl.
  - split; [done|constructor].
  - destruct IH as [Hmem Hsorted].
    rewrite foldl_app. simpl. rewrite incr_keys.
    set (keys := (foldl (λ c issue, incr issue c) [] cats).*1) in *.
    assert (StronglySorted
              (λ a b, (first_index a (cats ++ [k]) < first_index b (cats ++ [k]))%nat) keys)
      as Hkeep.
    { eapply StronglySorted_among; [|exact Hsorted].
      intros x y Hx%Hmem Hy%Hmem. by rewrite !first_index_app_l. }
    destruct (decide (k ∈ keys)) as [Hin|Hin].
    + split; [|done]. intros a. rewrite Hmem, elem_of_app, list_elem_of_singleton.
      split; [by left|]. intros [?| ->]; [done|]. by apply Hmem.
    + split.
      * intros a. rewrite !elem_of_app, Hmem. done.
      * apply StronglySorted_app_2; [|done|by repeat constructor].
        intros x y Hx%Hmem ->%list_elem_of_singleton.
        rewrite first_index_app_l by done.
        rewrite first_index_fresh by (by rewrite <- Hmem).
        by apply first_index_lt.
Qed.

(** The issues and the stats of an analysis that was returned. *)
Lemma analyze_reviews_Ok_issues (reviews : list review) (a : analysis) :
  analyze reviews = Ok a →
  issues a = take 5 (sorted_desc
               (foldl (λ c issue, incr issue c) []
                  (issue_sequence lower (negatives reviews)))).
Proof.
  intros Ha. destruct reviews as [|r l]; [by injection Ha as <-|].
  pose proof (analyze_reviews_inv _ _ Ha) as Htext.
  rewrite analyze_reviews_nonempty in Ha by done. by injection Ha as <-.
Qed.

Lemma analyze_reviews_Ok_stats (reviews : list review) (a : analysis) :
  reviews ≠ [] →
  analyze reviews = Ok a →
  stats a = <[ "total" := Z.of_nat (length reviews) ]>
            (<[ "positive" := count_label (lit "POSITIVE") (labels reviews) ]>
            (<[ "negative" := count_label (lit "NEGATIVE") (labels reviews) ]>
            {[ "neutral" := Z.of_nat (length reviews)
                            - count_label (lit "POSITIVE") (labels reviews)
                            - count_label (lit "NEGATIVE") (labels reviews) ]})).
Proof.
  intros Hne Ha. pose proof (analyze_reviews_inv _ _ Ha) as Htext.
  rewrite analyze_reviews_nonempty in Ha by done. by injection Ha as <-.
Qed.

(** A review among others: the issue loop runs on the whole list exactly
    when it runs on the others and, should the review be NEGATIVE, on it. *)
Lemma negatives_insert_text (l1 l2 : list review) (r : review) :
  Forall has_text (negatives (l1 ++ r :: l2)) ↔
  Forall has_text (negatives (l1 ++ l2)) ∧ (label r = lit "NEGATIVE" → has_text r).
Proof.
  rewrite !negative_reviews_app, negative_reviews_cons, !Forall_app.
  case_decide as Hl.
  - rewrite Forall_cons. tauto.
  - tauto.
Qed.

(** C2, as amended: the issues are at most 5, in descending order of
    count; categories of equal count are in the order in which the negative
    reviews met them first, not in the order of the taxonomy. *)
Theorem issues_ranked_by_count_then_first_seen (reviews : list review) :
  (∀ a, analyze reviews = Ok a →
        (length (issues a) ≤ 5)%nat ∧
        ranked (λ issue, first_index issue (issue_sequence lower (negatives reviews)))
               (issues a)) ∧
  (no_array reviews → ∃ a, analyze reviews = Ok a).
Proof.
  split; [|by intros ?; apply analyze_reviews_returns, no_negative_array_text].
  intros a Ha. rewrite (analyze_reviews_Ok_issues _ _ Ha). split.
  - rewrite length_take. lia.
  - set (cats := issue_sequence lower (negatives reviews)).
    destruct (foldl_incr_keys cats) as [_ Hsorted]. simpl in Hsorted.
    apply StronglySorted_on_keys in Hsorted.
    apply sorted_desc_sorted in Hsorted.
    rewrite <- (take_drop 5 (sorted_desc _)) in Hsorted.
    by apply StronglySorted_app_1_l in Hsorted.
Qed.

Lemma issue_sequence_length (negs : list review) :
  (length (issue_sequence lower negs) ≤ length negs)%nat.
Proof.
  unfold issue_sequence.
  generalize (λ r, s ← text_of (content r); first_match (lower s) issue_keywords).
  intros f. induction negs as [|r negs IH]; [done|].
  cbn [omap list_omap]. destruct (f r); simpl in *; lia.
Qed.

(** The issue counts never add up to more than the negative count. *)
Lemma issue_sum_le_negative (reviews : list review) (a : analysis) :
  analyze reviews = Ok a → sum_counts (issues a) ≤ n_negative reviews.
Proof.
  intros Ha. rewrite (analyze_reviews_Ok_issues _ _ Ha).
  etrans; [apply sum_counts_take|].
  { rewrite sorted_desc_Permutation. apply foldl_incr_positive. constructor. }
  rewrite sum_counts_sorted_desc, sum_counts_foldl, negative_count_length.
  pose proof (issue_sequence_length (negatives reviews)). simpl. lia.
Qed.

(** C9: a NEGATIVE review whose lower-cased content has no keyword adds one
    to the negative count and leaves the issues as they are without it; and
    on every list the issue counts add up to at most the negative count. *)
Theorem unmatched_negative_counts_no_issue (l1 l2 : list review) (r : review) (s : str) :
  content r = JString s →
  label r = lit "NEGATIVE" →
  (∀ issue kws, (issue, kws) ∈ issue_keywords → any_keyword (lower s) kws = false) →
  (∀ a, analyze (l1 ++ r :: l2) = Ok a →
        ∃ a', analyze (l1 ++ l2) = Ok a' ∧
              stats a !! "negative" = Some (n_negative (l1 ++ l2) + 1) ∧
              issues a = issues a') ∧
  (no_array (l1 ++ l2) →
   ∃ a a', analyze (l1 ++ r :: l2) = Ok a ∧ analyze (l1 ++ l2) = Ok a' ∧
           stats a !! "negative" = Some (n_negative (l1 ++ l2) + 1) ∧
           issues a = issues a') ∧
  (∀ counts, scan_keywords (lower s) issue_keywords counts = counts) ∧
  (∀ reviews,
     (∀ a, analyze reviews = Ok a → sum_counts (issues a) ≤ n_negative reviews) ∧
     (no_array reviews →
      ∃ a, analyze reviews = Ok a ∧ sum_counts (issues a) ≤ n_negative reviews)).
Proof.
  intros Hs Hneg Hno.
  pose proof (first_match_None _ _ Hno) as Hnone.
  assert (n_negative (l1 ++ r :: l2) = n_negative (l1 ++ l2) + 1) as Hcount.
  { rewrite !negative_count_length, !negative_reviews_app, negative_reviews_cons.
    rewrite decide_True by done. rewrite !length_app. simpl. lia. }
  assert (issue_sequence lower (negatives (l1 ++ r :: l2)) =
          issue_sequence lower (negatives (l1 ++ l2))) as Hseq.
  { rewrite !negative_reviews_app, negative_reviews_cons.
    rewrite decide_True by done. unfold issue_sequence.
    rewrite !omap_app. cbn [omap list_omap]. rewrite Hs. cbn [text_of mbind option_bind].
    by rewrite Hnone. }
  assert (∀ a, analyze (l1 ++ r :: l2) = Ok a →
            ∃ a', analyze (l1 ++ l2) = Ok a' ∧
                  stats a !! "negative" = Some (n_negative (l1 ++ l2) + 1) ∧
                  issues a = issues a') as Hif.
  { intros a Ha. pose proof (analyze_reviews_inv _ _ Ha) as Htext.
    apply negatives_insert_text in Htext as [Htext _].
    destruct (analyze_reviews_returns _ Htext) as [a' Ha'].
    exists a'. split; [done|]. split.
    - assert (l1 ++ r :: l2 ≠ []) as Hne by (by destruct l1).
      rewrite (analyze_reviews_Ok_stats _ _ Hne Ha).
      rewrite <- Hcount. unfold negative_count. by simplify_map_eq.
    - by rewrite (analyze_reviews_Ok_issues _ _ Ha), (analyze_reviews_Ok_issues _ _ Ha'), Hseq. }
  split_and!.
  - done.
  - intros Hna.
    destruct (analyze_reviews_returns (l1 ++ r :: l2)) as [a Ha].
    { apply negatives_insert_text. split; [by apply no_negative_array_text|].
      intros _. rewrite Hs. by eexists. }
    destruct (Hif a Ha) as (a' & ? & ? & ?). by exists a, a'.
  - intros counts. by rewrite scan_keywords_first_match, Hnone.
  - intros reviews. split; [apply issue_sum_le_negative|].
    intros Hna. destruct (analyze_reviews_returns reviews) as [a Ha];
      [by apply no_negative_array_text|].
    exists a. split; [done|]. by apply issue_sum_le_negative.
Qed.

End AnalyzerProperties.

(** A model that fails on every list labels none of them. *)
Lemma no_batch_no_negative_array (reviews : list review) :
  no_negative_array no_batch reviews.
Proof. intros r elements _ _. discriminate. Qed.

Lemma issue_loop_never_raises_witness :
  ∃ a, analyze_reviews always_negative no_batch ascii_lower
         [text_review "It came late"; no_content_review; array_review] = Ok a.
Proof.
  apply (issue_loop_never_raises always_negative no_batch ascii_lower
           [text_review "It came late"; no_content_review; array_review]).
  apply no_batch_no_negative_array.
Defined.

(** C10, as stated, fails: a content that is a list takes the slice, the
    model labels it NEGATIVE, the review reaches the issue loop, and
    lower-casing it raises out of [analyze_reviews]. *)
Lemma array_content_reaches_lower :
  array_review ∈ negative_reviews always_negative first_of_batch [array_review] ∧
  text_of (content array_review) = None ∧
  analyze_reviews always_negative first_of_batch ascii_lower [array_review] =
    Raise AttributeError ∧
  ¬ (Forall (λ r, is_Some (text_of (content r)))
       (negative_reviews always_negative first_of_batch [array_review]) ∧
     ∃ a, analyze_reviews always_negative first_of_batch ascii_lower [array_review] = Ok a).
Proof.
  split; [vm_compute; apply elem_of_cons; by left|].
  split; [reflexivity|]. split; [reflexivity|].
  intros [_ [a Ha]]. vm_compute in Ha. discriminate.
Qed.

Lemma counts_sum_to_total_witness :
  ∃ a, analyze_reviews always_negative no_batch ascii_lower
         [text_review "Price too high"; no_content_review] = Ok a ∧
       stats_sum_to_total [text_review "Price too high"; no_content_review] a ∧
       ∀ k v, stats a !! k = Some v → 0 ≤ v.
Proof.
  destruct (counts_sum_to_total always_negative no_batch ascii_lower
              [text_review "Price too high"; no_content_review]) as [Hif Hret];
    [discriminate|].
  destruct Hret as [a Ha]; [apply no_batch_no_negative_array|].
  exists a. split; [exact Ha|]. exact (Hif a Ha).
Defined.

(** C1, as stated, fails on the empty list: the stats returned there have
    the total and none of the three counts. *)
Lemma empty_list_has_no_counts :
  ∃ a, analyze_reviews always_negative no_batch ascii_lower [] = Ok a ∧
       stats a !! "total" = Some 0 ∧ stats a !! "positive" = None ∧
       ¬ stats_sum_to_total [] a.
Proof.
  eexists. split; [reflexivity|]. split; [reflexivity|]. split; [reflexivity|].
  intros (pos & neg & neu & total & Hpos & _). vm_compute in Hpos. discriminate.
Qed.

Lemma failed_classification_is_neutral_witness :
  sentiments_of fails_on_empty no_batch
    ([text_review "fine"] ++ no_content_review :: [text_review ""; text_review "ok"]) =
  sentiments_of fails_on_empty no_batch [text_review "fine"] ++
  lit "NEUTRAL" :: sentiments_of fails_on_empty no_batch [text_review ""; text_review "ok"].
Proof.
  apply (failed_classification_is_neutral fails_on_empty no_batch ascii_lower
           [text_review "fine"] [text_review ""; text_review "ok"] no_content_review).
  left. reflexivity.
Defined.


Lemma first_category_wins_witness :
  tally_issues ascii_lower [text_review "Overpriced, and it came LATE"] [] =
    Ok [("delivery", 1)].
Proof.
  apply (first_category_wins ascii_lower
           (text_review "Overpriced, and it came LATE")
           (lit "Overpriced, and it came LATE") [] [] 1 2
           "delivery" "price"
           [lit "delivery"; lit "late"; lit "slow"; lit "shipping"]
           [lit "price"; lit "expensive"; lit "overpriced"]).
  - reflexivity.
  - reflexivity.
  - reflexivity.
  - lia.
  - vm_compute. reflexivity.
  - vm_compute. reflexivity.
  - intros h c kws Hh Hl. assert (h = 0%nat) as -> by lia.
    injection Hl as <- <-. vm_compute. reflexivity.
Defined.

Lemma issues_ranked_by_count_then_first_seen_witness :
  ∃ a, analyze_reviews always_negative no_batch ascii_lower
         [text_review "Price too high"; text_review "poor QUALITY";
          text_review "bad quality"] = Ok a ∧
       (length (issues a) ≤ 5)%nat ∧
       ranked (λ issue, first_index issue
                 (issue_sequence ascii_lower
                    (negative_reviews always_negative no_batch
                       [text_review "Price too high"; text_review "poor QUALITY";
                        text_review "bad quality"])))
              (issues a).
Proof.
  destruct (issues_ranked_by_count_then_first_seen always_negative no_batch ascii_lower
              [text_review "Price too high"; text_review "poor QUALITY";
               text_review "bad quality"]) as [Hif Hret].
  destruct Hret as [a Ha]; [apply no_batch_no_negative_array|].
  exists a. split; [exact Ha|]. exact (Hif a Ha).
Defined.

(** C2, as stated, fails on a tie: price is met before quality and stays
    before it, against the order of the taxonomy. *)
Lemma ties_not_in_taxonomy_order :
  ∃ a, analyze_reviews always_negative no_batch ascii_lower
         [text_review "Price too high"; text_review "poor QUALITY"] = Ok a ∧
       issues a = [("price", 1); ("quality", 1)] ∧
       ¬ ((length (issues a) ≤ 5)%nat ∧ ranked taxonomy_index (issues a)).
Proof.
  eexists. split; [reflexivity|]. split; [reflexivity|].
  intros [_ H]. cbn [issues] in H.
  apply StronglySorted_cons in H as [H _].
  apply Forall_cons in H as [[H|[_ H]] _].
  - simpl in H. lia.
  - vm_compute in H. lia.
Qed.

Lemma unmatched_negative_counts_no_issue_witness :
  ∃ a a', analyze_reviews always_negative no_batch ascii_lower
            ([text_review "It came late"] ++ text_review "Terrible" :: []) = Ok a ∧
          analyze_reviews always_negative no_batch ascii_lower
            ([text_review "It came late"] ++ []) = Ok a' ∧
          stats a !! "negative" =
            Some (negative_count always_negative no_batch
                    ([text_review "It came late"] ++ []) + 1) ∧
          issues a = issues a'.
Proof.
  destruct (unmatched_negative_counts_no_issue always_negative no_batch ascii_lower
              [text_review "It came late"] [] (text_review "Terrible") (lit "Terrible"))
    as (_ & Hret & _).
  - reflexivity.
  - reflexivity.
  - intros issue kws Hin. unfold issue_keywords in Hin.
    repeat (apply elem_of_cons in Hin as [Hin|Hin];
            [injection Hin as -> ->; vm_compute; reflexivity|]).
    by apply elem_of_nil in Hin.
  - apply Hret. apply no_batch_no_negative_array.
Defined.

(** * Further properties of the fetcher *)

Section FetcherStructure.

Variable is_digit : char → bool.
Variable fetch : str → Z → page_response.

Local Abbreviation get := (get_daraz_reviews is_digit fetch).
Local Abbreviation loop := (fetch_pages fetch).

(** ** The product id *)

Lemma digits_split (s : str) :
  ∃ rest, s = digits is_digit s ++ rest ∧
          Forall (λ c, is_digit c = true) (digits is_digit s) ∧
          ∀ c rest', rest = c :: rest' → is_digit c = false.
Proof.
  induction s as [|c s (rest & Heq & Hall & Hstop)]; simpl.
  - exists []. split; [done|]. split; [constructor|]. by intros c r.
  - destruct (is_digit c) eqn:Hc.
    + exists rest. split; [simpl; by rewrite <- Heq|]. split; [by constructor|done].
    + exists (c :: s). split; [done|]. split; [constructor|].
      intros c' r [= <- _]. done.
Qed.

Lemma match_here_split (s g : str) :
  match_here is_digit s = Some g →
  ∃ post, s = lit "-i" ++ g ++ post ∧ g ≠ [] ∧
          Forall (λ c, is_digit c = true) g ∧
          ∀ c post', post = c :: post' → is_digit c = false.
Proof.
  unfold match_here. destruct (starts_with (lit "-i") s) eqn:Hp; [|done].
  apply starts_with_inv in Hp as [t ->].
  change (drop 2 (lit "-i" ++ t)) with t.
  destruct (digits_split t) as (rest & Heq & Hall & Hstop).
  destruct (digits is_digit t) as [|d ds] eqn:Hd; [done|].
  intros [= <-]. exists rest. by rewrite <- Heq.
Qed.

(** X1: the product id is the run of digits after the leftmost [-i] that a
    digit follows, and the whole of that run. *)
Theorem product_id_leftmost_digit_run (url pid : str) :
  re_search is_digit url = Some pid →
  ∃ pre post,
    url = pre ++ lit "-i" ++ pid ++ post ∧
    pid ≠ [] ∧ Forall (λ c, is_digit c = true) pid ∧
    (∀ c post', post = c :: post' → is_digit c = false) ∧
    (∀ pre' d post', url = pre' ++ lit "-i" ++ d :: post' → is_digit d = true →
                     (length pre ≤ length pre')%nat).
Proof.
  revert pid. induction url as [|c url IH]; intros pid; simpl.
  - destruct (match_here is_digit []) eqn:Hm; [|done].
    apply match_here_split in Hm as (post & Heq & _). by destruct post.
  - destruct (match_here is_digit (c :: url)) as [g|] eqn:Hm.
    + intros [= ->]. apply match_here_split in Hm as (post & Heq & Hne & Hall & Hstop).
      exists [], post. split_and!; try done. simpl. lia.
    + intros Hs. destruct (IH _ Hs) as (pre & post & -> & Hne & Hall & Hstop & Hleft).
      exists (c :: pre), post. split_and!; [done..|].
      intros pre' d post' Heq Hd. destruct pre' as [|c' pre'].
      * apply (match_here_None_inv _ _ d post') in Hm; [congruence|exact Heq].
      * injection Heq as _ Heq. cbn [length]. apply le_n_S.
        exact (Hleft pre' d post' Heq Hd).
Qed.

(** ** The pages requested and what they give *)

(** The loop requests consecutive pages, at most [n] of them, and returns
    what these pages gave, in their order. *)
Lemma fetch_pages_trace (pid : str) (n : nat) (page : Z) reviews log :
  ∃ k, 0 ≤ k ≤ Z.of_nat n ∧
       loop pid n page reviews log =
         (reviews ++ concat (map (λ p, page_reviews (fetch pid p)) (seqZ page k)),
          log ++ seqZ page k).
Proof.
  revert page reviews log. induction n as [|n IH]; intros page reviews log.
  - exists 0. split; [lia|]. simpl. by rewrite !app_nil_r.
  - rewrite fetch_pages_step. case_decide as He.
    + exists 1. split; [lia|]. rewrite (seqZ_cons page 1) by lia.
      change (seqZ (Z.succ page) (Z.pred 1)) with (@nil Z).
      simpl. rewrite He. simpl. by rewrite app_nil_r.
    + destruct (IH (page + 1) (reviews ++ page_reviews (fetch pid page)) (log ++ [page]))
        as (k & Hk & ->).
      exists (k + 1). split; [lia|].
      replace (k + 1) with (Z.succ k) by lia.
      rewrite (seqZ_cons page (Z.succ k)) by lia.
      replace (Z.pred (Z.succ k)) with k by lia.
      replace (Z.succ page) with (page + 1) by lia.
      simpl. by rewrite <- !app_assoc.
Qed.

(** X2: the pages requested are 1, 2, ..., [k] for some [k] that is at most
    [max_pages]: none twice, none out of order, and none at all when
    [max_pages] is 0 or less, where the result is empty. *)
Theorem requests_are_an_initial_segment (url : str) (max_pages : Z) :
  (∃ k, 0 ≤ k ≤ Z.max 0 max_pages ∧ (get url max_pages).2 = seqZ 1 k) ∧
  (max_pages ≤ 0 → get url max_pages = ([], [])).
Proof.
  unfold get_daraz_reviews. destruct (re_search is_digit url) as [pid|].
  - split.
    + destruct (fetch_pages_trace pid (Z.to_nat max_pages) 1 [] []) as (k & Hk & ->).
      exists k. split; [lia|done].
    + intros Hle. by replace (Z.to_nat max_pages) with 0%nat by lia.
  - split; [|done]. exists 0. split; [lia|done].
Qed.

(** X3: the reviews returned are those of the pages requested, page after
    page: for each page the items before its first malformed one, and
    nothing for a page that failed. *)
Theorem reviews_are_those_of_requested_pages (url pid : str) (max_pages : Z) :
  re_search is_digit url = Some pid →
  (get url max_pages).1 =
    concat (map (λ p, page_reviews (fetch pid p)) (get url max_pages).2).
Proof.
  intros Hid. unfold get_daraz_reviews. rewrite Hid.
  by destruct (fetch_pages_trace pid (Z.to_nat max_pages) 1 [] []) as (k & _ & ->).
Qed.

Lemma parsed_items_from_object (items : list raw_item) (r : review) :
  r ∈ parsed_items items →
  ∃ a ra d c l, ItemObject a ra d c l ∈ items ∧
                r = {| author := a; rating := ra; date := d; content := c; likes := l |}.
Proof.
  induction items as [|[a ra d c l|] items IH]; simpl; [by intros ?%elem_of_nil| |by intros ?%elem_of_nil].
  intros [->|Hin]%elem_of_cons.
  - exists a, ra, d, c, l. split; [apply elem_of_cons; by left|done].
  - destruct (IH Hin) as (a' & ra' & d' & c' & l' & Hin' & ->).
    exists a', ra', d', c', l'. split; [apply elem_of_cons; by right|done].
Qed.

(** X4: every review returned is the copy of an object among the items of
    a page that was requested: buyerName, rating, reviewTime, reviewContent
    and likeCount become author, rating, date, content and likes. *)
Theorem every_review_has_an_item (url : str) (max_pages : Z) (r : review) :
  r ∈ (get url max_pages).1 →
  ∃ pid page items a ra d c l,
    re_search is_digit url = Some pid ∧
    page ∈ (get url max_pages).2 ∧
    fetch pid page = Items items ∧
    ItemObject a ra d c l ∈ items ∧
    r = {| author := a; rating := ra; date := d; content := c; likes := l |}.
Proof.
  unfold get_daraz_reviews. destruct (re_search is_digit url) as [pid|];
    [|by intros ?%elem_of_nil].
  destruct (fetch_pages_trace pid (Z.to_nat max_pages) 1 [] []) as (k & _ & ->).
  simpl. intros Hin. apply list_elem_of_In, in_concat in Hin as (rs & Hrs & Hr).
  apply in_map_iff in Hrs as (page & <- & Hpage).
  apply list_elem_of_In in Hpage, Hr.
  destruct (fetch pid page) as [|items] eqn:Hf; simpl in Hr; [by apply elem_of_nil in Hr|].
  destruct (parsed_items_from_object _ _ Hr) as (a & ra & d & c & l & Hin & ->).
  by exists pid, page, items, a, ra, d, c, l.
Qed.



End FetcherStructure.

Lemma product_id_leftmost_digit_run_witness :
  ∃ pre post,
    product_url = pre ++ lit "-i" ++ lit "4711" ++ post ∧
    lit "4711" ≠ [] ∧ Forall (λ c, ascii_digit c = true) (lit "4711") ∧
    (∀ c post', post = c :: post' → ascii_digit c = false) ∧
    (∀ pre' d post', product_url = pre' ++ lit "-i" ++ d :: post' →
                     ascii_digit d = true → (length pre ≤ length pre')%nat).
Proof.
  apply (product_id_leftmost_digit_run ascii_digit product_url (lit "4711")).
  vm_compute. reflexivity.
Defined.

Lemma reviews_are_those_of_requested_pages_witness :
  (get_daraz_reviews ascii_digit broken_page product_url 2).1 =
    concat (map (λ p, page_reviews (broken_page (lit "4711") p))
                (get_daraz_reviews ascii_digit broken_page product_url 2).2).
Proof.
  apply (reviews_are_those_of_requested_pages
           ascii_digit broken_page product_url (lit "4711") 2).
  vm_compute. reflexivity.
Defined.

Lemma every_review_has_an_item_witness :
  ∃ pid page items a ra d c l,
    re_search ascii_digit product_url = Some pid ∧
    page ∈ (get_daraz_reviews ascii_digit broken_page product_url 1).2 ∧
    broken_page pid page = Items items ∧
    ItemObject a ra d c l ∈ items ∧
    Review (JString (lit "A.")) (JNumber (lit "5")) JNull (JString (lit "good"))
           (JNumber (lit "0")) =
      {| author := a; rating := ra; date := d; content := c; likes := l |}.
Proof.
  apply (every_review_has_an_item ascii_digit broken_page product_url 1).
  vm_compute. apply elem_of_cons. by left.
Defined.


(** * Further properties of the analyzer *)

Section AnalyzerStructure.

Variable sentiment_analyzer : str → result str.
Variable sentiment_analyzer_batch : list json → result str.
Variable lower : str → str.

Local Abbreviation label := (sentiment_of sentiment_analyzer sentiment_analyzer_batch).
Local Abbreviation labels := (sentiments_of sentiment_analyzer sentiment_analyzer_batch).
Local Abbreviation negatives :=
  (negative_reviews sentiment_analyzer sentiment_analyzer_batch).
Local Abbreviation n_negative :=
  (negative_count sentiment_analyzer sentiment_analyzer_batch).
Local Abbreviation analyze :=
  (analyze_reviews sentiment_analyzer sentiment_analyzer_batch lower).
Local Abbreviation no_array := (no_negative_array sentiment_analyzer_batch).
Local Abbreviation attributed reviews := (issue_sequence lower (negatives reviews)).
Local Abbreviation counted reviews :=
  (foldl (λ c issue, incr issue c) [] (issue_sequence lower (negatives reviews))).

(** ** The neutral count *)

Lemma count_other_complement (l : list str) :
  count_label (lit "POSITIVE") l + count_label (lit "NEGATIVE") l + count_other l =
    Z.of_nat (length l).
Proof.
  assert (lit "POSITIVE" ≠ lit "NEGATIVE") as Hpn by (vm_compute; discriminate).
  induction l as [|s l IH]; [done|].
  cbn [count_label count_other length].
  destruct (decide (s = lit "POSITIVE")) as [->|Hp].
  - rewrite decide_False by done.
    rewrite decide_True by (by left). lia.
  - destruct (decide (s = lit "NEGATIVE")) as [->|Hn].
    + rewrite decide_True by (by right). lia.
    + rewrite decide_False by (by intros [?|?]). lia.
Qed.

(** X6: the neutral count is the number of reviews whose label is neither
    POSITIVE nor NEGATIVE: the reviews whose classification raised, and
    those for which the model gave any other label. *)
Theorem neutral_counts_every_other_label (reviews : list review) :
  reviews ≠ [] →
  (∀ a, analyze reviews = Ok a →
        stats a !! "neutral" = Some (count_other (labels reviews))) ∧
  (no_array reviews → ∃ a, analyze reviews = Ok a).
Proof.
  intros Hne. split; [|by intros ?; apply analyze_reviews_returns, no_negative_array_text].
  intros a Ha. rewrite (analyze_reviews_Ok_stats _ _ _ _ _ Hne Ha).
  pose proof (count_other_complement (labels reviews)) as H.
  rewrite sentiments_of_length in H.
  rewrite lookup_insert_ne, lookup_insert_ne, lookup_insert_ne by done.
  rewrite lookup_singleton_eq. f_equal. lia.
Qed.

(** ** The issue counts as a mapping *)

Lemma foldl_incr_NoDup (cats : list string) :
  NoDup (foldl (λ c issue, incr issue c) [] cats).*1.
Proof.
  induction cats as [|k cats IH] using rev_ind; [constructor|].
  rewrite foldl_app. simpl. rewrite incr_keys. case_decide as Hin; [done|].
  apply NoDup_app. split; [done|]. split; [|apply NoDup_singleton].
  intros x Hx ->%list_elem_of_singleton. done.
Qed.

Lemma foldl_incr_mem (cats : list string) (k : string) :
  k ∈ (foldl (λ c issue, incr issue c) [] cats).*1 ↔ k ∈ cats.
Proof. exact (proj1 (foldl_incr_keys cats) k). Qed.

Lemma first_match_in_table (s : str) table (k : string) :
  first_match s table = Some k → k ∈ table.*1.
Proof.
  induction table as [|[c ks] table IH]; simpl; [done|].
  destruct (any_keyword s ks).
  - intros [= ->]. apply elem_of_cons. by left.
  - intros H. apply elem_of_cons. right. by apply IH.
Qed.

Lemma issue_sequence_in_taxonomy (negs : list review) (k : string) :
  k ∈ issue_sequence lower negs → k ∈ issue_keywords.*1.
Proof.
  unfold issue_sequence. intros (r & _ & Hr)%list_elem_of_omap.
  destruct (text_of (content r)) as [s|]; [|done].
  by apply first_match_in_table in Hr.
Qed.

(** There are five categories, so the counts have at most five entries. *)
Lemma counted_length (reviews : list review) : (length (counted reviews) ≤ 5)%nat.
Proof.
  assert (length (counted reviews).*1 ≤ length (issue_keywords.*1))%nat as H.
  { apply submseteq_length, NoDup_submseteq; [apply foldl_incr_NoDup|].
    intros k Hk. apply (proj1 (foldl_incr_mem _ _)) in Hk.
    by apply issue_sequence_in_taxonomy in Hk. }
  by rewrite length_fmap in H.
Qed.

(** What [analyze_reviews] returns as issues, on every list: the cut at 5
    has nothing to cut. *)
Lemma analyze_issues (reviews : list review) (a : analysis) :
  analyze reviews = Ok a → issues a = sorted_desc (counted reviews).
Proof.
  intros Ha. rewrite (analyze_reviews_Ok_issues _ _ _ _ _ Ha).
  apply take_ge. rewrite sorted_desc_Permutation. apply counted_length.
Qed.

Lemma count_of_foldl (k : string) (cats : list string) counts :
  count_of k (foldl (λ c issue, incr issue c) counts cats) =
    count_of k counts + Z.of_nat (length (filter (λ c, c = k) cats)).
Proof.
  revert counts. induction cats as [|c cats IH]; intros counts; simpl; [lia|].
  rewrite IH, filter_cons. destruct (decide (c = k)) as [->|Hc].
  - rewrite count_of_incr_eq. simpl. lia.
  - rewrite count_of_incr_ne by done. lia.
Qed.

Lemma count_of_elem (k : string) (v : Z) (l : list (string * Z)) :
  NoDup l.*1 → (k, v) ∈ l → count_of k l = v.
Proof.
  induction l as [|[k' v'] l IH]; [by intros _ ?%elem_of_nil|].
  rewrite fmap_cons. intros [Hk' Hl]%NoDup_cons [Heq|Hin]%elem_of_cons; simpl.
  - injection Heq as -> ->. by rewrite decide_True.
  - rewrite decide_False; [by apply IH|].
    intros ->. apply Hk'. by apply (list_elem_of_fmap_2 fst) in Hin.
Qed.

Lemma count_of_absent (k : string) (l : list (string * Z)) :
  k ∉ l.*1 → count_of k l = 0.
Proof.
  induction l as [|[k' v'] l IH]; [done|].
  rewrite fmap_cons. intros [Hne Hl]%not_elem_of_cons. simpl.
  rewrite decide_False by done. by apply IH.
Qed.

Lemma count_of_Permutation (k : string) (l l' : list (string * Z)) :
  NoDup l.*1 → l ≡ₚ l' → count_of k l = count_of k l'.
Proof.
  intros Hnd Hp. destruct (decide (k ∈ l.*1)) as [Hin|Hin].
  - apply list_elem_of_fmap in Hin as ([k' v] & -> & Hin). simpl.
    rewrite (count_of_elem k' v l) by done.
    symmetry. apply count_of_elem; [by rewrite <- Hp|by rewrite <- Hp].
  - rewrite (count_of_absent k l) by done.
    symmetry. apply count_of_absent. by rewrite <- Hp.
Qed.

Lemma issues_count_of (reviews : list review) (k : string) :
  count_of k (sorted_desc (counted reviews)) =
    Z.of_nat (length (filter (λ c, c = k) (attributed reviews))).
Proof.
  rewrite <- (count_of_Permutation k (counted reviews)).
  - by rewrite count_of_foldl.
  - apply foldl_incr_NoDup.
  - by rewrite sorted_desc_Permutation.
Qed.

(** X7: the issues are a mapping from categories of the taxonomy to counts
    of at least 1, no category twice; and every category that some negative
    review was counted for is among them: the cut at 5 drops none. *)
Theorem issues_keep_every_counted_category (reviews : list review) :
  (∀ a, analyze reviews = Ok a →
        NoDup (issues a).*1 ∧
        (∀ k v, (k, v) ∈ issues a → k ∈ issue_keywords.*1 ∧ 1 ≤ v) ∧
        (∀ k, k ∈ attributed reviews → k ∈ (issues a).*1)) ∧
  (no_array reviews → ∃ a, analyze reviews = Ok a).
Proof.
  split; [|by intros ?; apply analyze_reviews_returns, no_negative_array_text].
  intros a Ha. rewrite (analyze_issues _ _ Ha). split_and!.
  - rewrite sorted_desc_Permutation. apply foldl_incr_NoDup.
  - intros k v Hin. rewrite sorted_desc_Permutation in Hin. split.
    + apply (issue_sequence_in_taxonomy (negatives reviews)).
      apply (proj1 (foldl_incr_mem _ _)). by apply (list_elem_of_fmap_2 fst) in Hin.
    + pose proof (foldl_incr_positive (attributed reviews) [] (Forall_nil_2 _)) as Hpos.
      rewrite Forall_forall in Hpos. specialize (Hpos _ Hin). simpl in Hpos. lia.
  - intros k Hk. rewrite sorted_desc_Permutation. by apply (proj2 (foldl_incr_mem _ _)).
Qed.

(** X8: the count of a category is the number of negative reviews whose
    first matching category it is; a category that no negative review
    matches first counts 0, being absent. *)
Theorem issue_count_is_number_attributed (reviews : list review) :
  (∀ a, analyze reviews = Ok a →
        ∀ k, count_of k (issues a) =
               Z.of_nat (length (filter (λ c, c = k) (attributed reviews)))) ∧
  (no_array reviews → ∃ a, analyze reviews = Ok a).
Proof.
  split; [|by intros ?; apply analyze_reviews_returns, no_negative_array_text].
  intros a Ha k. rewrite (analyze_issues _ _ Ha). apply issues_count_of.
Qed.

(** X9: the issue counts add up to the number of negative reviews that
    match some category. *)
Theorem issue_counts_sum_to_matched_negatives (reviews : list review) :
  (∀ a, analyze reviews = Ok a →
        sum_counts (issues a) = Z.of_nat (length (attributed reviews))) ∧
  (no_array reviews → ∃ a, analyze reviews = Ok a).
Proof.
  split; [|by intros ?; apply analyze_reviews_returns, no_negative_array_text].
  intros a Ha.
  rewrite (analyze_issues _ _ Ha), sum_counts_sorted_desc, sum_counts_foldl. simpl. lia.
Qed.

(** ** Reviews that are not negative, and the order of the reviews *)

(** X10: a review that is not labelled NEGATIVE has no part in the issues,
    whatever keywords it has: the issues are those of the list without it,
    and so is the negative count. *)
Theorem other_reviews_have_no_issue (l1 l2 : list review) (r : review) :
  label r ≠ lit "NEGATIVE" →
  (∀ a, analyze (l1 ++ r :: l2) = Ok a →
        ∃ a', analyze (l1 ++ l2) = Ok a' ∧
              issues a = issues a' ∧
              stats a !! "negative" = Some (n_negative (l1 ++ l2)) ∧
              stats a !! "total" = Some (Z.of_nat (length (l1 ++ l2)) + 1)) ∧
  (no_array (l1 ++ l2) → ∃ a, analyze (l1 ++ r :: l2) = Ok a).
Proof.
  intros Hr.
  assert (negatives (l1 ++ r :: l2) = negatives (l1 ++ l2)) as Hneg.
  { rewrite !negative_reviews_app, negative_reviews_cons. by rewrite decide_False. }
  split.
  - intros a Ha. pose proof (analyze_reviews_inv _ _ _ _ _ Ha) as Htext.
    rewrite Hneg in Htext.
    destruct (analyze_reviews_returns sentiment_analyzer sentiment_analyzer_batch lower
                _ Htext) as [a' Ha'].
    exists a'. split; [done|]. split.
    + by rewrite (analyze_issues _ _ Ha), (analyze_issues _ _ Ha'), Hneg.
    + assert (l1 ++ r :: l2 ≠ []) as Hne by (by destruct l1).
      rewrite (analyze_reviews_Ok_stats _ _ _ _ _ Hne Ha). split.
      * rewrite lookup_insert_ne, lookup_insert_ne, lookup_insert_eq by done.
        f_equal. change (n_negative (l1 ++ r :: l2) = n_negative (l1 ++ l2)).
        by rewrite !negative_count_length, Hneg.
      * rewrite lookup_insert_eq. f_equal. rewrite !length_app. simpl. lia.
  - intros Hno. apply analyze_reviews_returns. rewrite Hneg.
    by apply no_negative_array_text.
Qed.

Lemma sentiments_of_Permutation (l l' : list review) :
  l ≡ₚ l' → labels l ≡ₚ labels l'.
Proof.
  induction 1; simpl; [done|by constructor|apply Permutation_swap|by etrans].
Qed.

Lemma count_label_Permutation (lbl : str) (l l' : list str) :
  l ≡ₚ l' → count_label lbl l = count_label lbl l'.
Proof. induction 1; simpl; lia. Qed.

Lemma negative_reviews_Permutation (l l' : list review) :
  l ≡ₚ l' → negatives l ≡ₚ negatives l'.
Proof.
  induction 1 as [|r l l' _ IH|r1 r2 l|l1 l2 l3 _ IH1 _ IH2].
  - done.
  - rewrite !negative_reviews_cons. case_decide; [by constructor|done].
  - rewrite !negative_reviews_cons.
    repeat case_decide; try done. apply Permutation_swap.
  - by etrans.
Qed.

(** X11: the order of the reviews does not matter to the stats, nor to the
    entries of the issues; it can only change the order in which the
    issues stand. *)
Theorem analysis_independent_of_review_order (reviews reviews' : list review) :
  reviews ≡ₚ reviews' →
  (∀ a, analyze reviews = Ok a →
        ∃ a', analyze reviews' = Ok a' ∧
              stats a = stats a' ∧
              (∀ k, count_of k (issues a) = count_of k (issues a')) ∧
              issues a ≡ₚ issues a') ∧
  (no_array reviews → ∃ a, analyze reviews = Ok a).
Proof.
  intros Hp.
  split; [|by intros ?; apply analyze_reviews_returns, no_negative_array_text].
  intros a Ha.
  destruct (analyze_reviews_returns sentiment_analyzer sentiment_analyzer_batch lower
              reviews') as [a' Ha'].
  { rewrite <- (negative_reviews_Permutation _ _ Hp).
    by eapply analyze_reviews_inv. }
  pose proof (analyze_issues _ _ Ha) as Hi.
  pose proof (analyze_issues _ _ Ha') as Hi'.
  assert (attributed reviews ≡ₚ attributed reviews') as Hatt.
  { unfold issue_sequence. by rewrite (negative_reviews_Permutation _ _ Hp). }
  assert (∀ k, count_of k (issues a) = count_of k (issues a')) as Hcount.
  { intros k. by rewrite Hi, Hi', !issues_count_of, Hatt. }
  assert (NoDup (issues a).*1 ∧ NoDup (issues a').*1) as [Hnd Hnd'].
  { rewrite Hi, Hi', !sorted_desc_Permutation. split; apply foldl_incr_NoDup. }
  assert (∀ k, k ∈ (issues a).*1 ↔ k ∈ (issues a').*1) as Hkeys.
  { intros k. rewrite Hi, Hi', !sorted_desc_Permutation.
    rewrite !foldl_incr_mem. by rewrite Hatt. }
  exists a'. split; [done|]. split; [|split; [done|]].
  - destruct reviews as [|r l].
    + apply Permutation_nil_l in Hp as <-.
      injection Ha as <-. by injection Ha' as <-.
    + destruct reviews' as [|r' l']; [by apply Permutation_nil_r in Hp|].
      rewrite (analyze_reviews_Ok_stats _ _ _ (r :: l) a) by done.
      rewrite (analyze_reviews_Ok_stats _ _ _ (r' :: l') a') by done.
      pose proof (Permutation_length Hp) as Hlen.
      pose proof (λ lbl, count_label_Permutation lbl _ _
                           (sentiments_of_Permutation _ _ Hp)) as Hcl.
      by rewrite Hlen, !Hcl.
  - apply NoDup_Permutation; [by eapply NoDup_fmap_1..|].
    assert (∀ b b' : analysis,
              NoDup (issues b').*1 →
              (∀ k, k ∈ (issues b).*1 → k ∈ (issues b').*1) →
              (∀ k, count_of k (issues b) = count_of k (issues b')) →
              NoDup (issues b).*1 →
              ∀ x, x ∈ issues b → x ∈ issues b') as Hhalf.
    { intros b b' Hb' Hsub Hc Hb [k v] Hin.
      assert (k ∈ (issues b').*1) as Hk.
      { apply Hsub. by apply (list_elem_of_fmap_2 fst) in Hin. }
      apply list_elem_of_fmap in Hk as ([k' v'] & -> & Hin'). simpl in *.
      rewrite <- (count_of_elem k' v (issues b)), Hc by done.
      by rewrite (count_of_elem k' v' (issues b')). }
    intros x. split.
    + apply Hhalf; try done. intros k. by apply Hkeys.
    + apply Hhalf; try done. intros k. by apply Hkeys.
Qed.

End AnalyzerStructure.

Lemma neutral_counts_every_other_label_witness :
  ∃ a, analyze_reviews fails_on_empty no_batch ascii_lower
         [text_review "fine"; no_content_review; text_review ""] = Ok a ∧
       stats a !! "neutral" =
         Some (count_other (sentiments_of fails_on_empty no_batch
                 [text_review "fine"; no_content_review; text_review ""])).
Proof.
  destruct (neutral_counts_every_other_label fails_on_empty no_batch ascii_lower
              [text_review "fine"; no_content_review; text_review ""]) as [Hif Hret];
    [discriminate|].
  destruct Hret as [a Ha]; [apply no_batch_no_negative_array|].
  exists a. split; [exact Ha|]. exact (Hif a Ha).
Defined.

Lemma issues_keep_every_counted_category_witness :
  ∃ a, analyze_reviews always_negative no_batch ascii_lower
         [text_review "Price too high"; text_review "Terrible"; text_review "poor"] = Ok a ∧
       NoDup (issues a).*1 ∧
       (∀ k v, (k, v) ∈ issues a → k ∈ issue_keywords.*1 ∧ 1 ≤ v) ∧
       (∀ k, k ∈ issue_sequence ascii_lower
                   (negative_reviews always_negative no_batch
                      [text_review "Price too high"; text_review "Terrible";
                       text_review "poor"]) →
             k ∈ (issues a).*1).
Proof.
  destruct (issues_keep_every_counted_category always_negative no_batch ascii_lower
              [text_review "Price too high"; text_review "Terrible"; text_review "poor"])
    as [Hif Hret].
  destruct Hret as [a Ha]; [apply no_batch_no_negative_array|].
  exists a. split; [exact Ha|]. exact (Hif a Ha).
Defined.

Lemma issue_count_is_number_attributed_witness :
  ∃ a, analyze_reviews always_negative no_batch ascii_lower
         [text_review "Price too high"; text_review "Terrible"; text_review "poor"] = Ok a ∧
       ∀ k, count_of k (issues a) =
              Z.of_nat (length (filter (λ c, c = k)
                          (issue_sequence ascii_lower
                             (negative_reviews always_negative no_batch
                                [text_review "Price too high"; text_review "Terrible";
                                 text_review "poor"])))).
Proof.
  destruct (issue_count_is_number_attributed always_negative no_batch ascii_lower
              [text_review "Price too high"; text_review "Terrible"; text_review "poor"])
    as [Hif Hret].
  destruct Hret as [a Ha]; [apply no_batch_no_negative_array|].
  exists a. split; [exact Ha|]. exact (Hif a Ha).
Defined.

Lemma issue_counts_sum_to_matched_negatives_witness :
  ∃ a, analyze_reviews always_negative no_batch ascii_lower
         [text_review "Price too high"; text_review "Terrible"; text_review "poor"] = Ok a ∧
       sum_counts (issues a) =
         Z.of_nat (length (issue_sequence ascii_lower
                             (negative_reviews always_negative no_batch
                                [text_review "Price too high"; text_review "Terrible";
                                 text_review "poor"]))).
Proof.
  destruct (issue_counts_sum_to_matched_negatives always_negative no_batch ascii_lower
              [text_review "Price too high"; text_review "Terrible"; text_review "poor"])
    as [Hif Hret].
  destruct Hret as [a Ha]; [apply no_batch_no_negative_array|].
  exists a. split; [exact Ha|]. exact (Hif a Ha).
Defined.

Lemma other_reviews_have_no_issue_witness :
  ∃ a a', analyze_reviews length_sensitive no_batch ascii_lower
            ([long_review "b"] ++ text_review "cheap and broken" :: []) = Ok a ∧
          analyze_reviews length_sensitive no_batch ascii_lower
            ([long_review "b"] ++ []) = Ok a' ∧
          issues a = issues a' ∧
          stats a !! "negative" =
            Some (negative_count length_sensitive no_batch ([long_review "b"] ++ [])) ∧
          stats a !! "total" = Some (Z.of_nat (length ([long_review "b"] ++ [])) + 1).
Proof.
  destruct (other_reviews_have_no_issue length_sensitive no_batch ascii_lower
              [long_review "b"] [] (text_review "cheap and broken")) as [Hif Hret].
  - vm_compute. discriminate.
  - destruct Hret as [a Ha]; [apply no_batch_no_negative_array|].
    destruct (Hif a Ha) as (a' & Ha' & H).
    exists a, a'. split; [exact Ha|]. split; [exact Ha'|]. exact H.
Defined.

Lemma analysis_independent_of_review_order_witness :
  ∃ a a', analyze_reviews always_negative no_batch ascii_lower
            [text_review "Price too high"; text_review "poor QUALITY"] = Ok a ∧
          analyze_reviews always_negative no_batch ascii_lower
            [text_review "poor QUALITY"; text_review "Price too high"] = Ok a' ∧
          stats a = stats a' ∧
          (∀ k, count_of k (issues a) = count_of k (issues a')) ∧
          issues a ≡ₚ issues a'.
Proof.
  destruct (analysis_independent_of_review_order always_negative no_batch ascii_lower
              [text_review "Price too high"; text_review "poor QUALITY"]
              [text_review "poor QUALITY"; text_review "Price too high"]) as [Hif Hret].
  - apply Permutation_swap.
  - destruct Hret as [a Ha]; [apply no_batch_no_negative_array|].
    destruct (Hif a Ha) as (a' & Ha' & H).
    exists a, a'. split; [exact Ha|]. split; [exact Ha'|]. exact H.
Defined.

(** * Properties of the request handler *)

Section HandlerProperties.

Variable is_digit : char → bool.
Variable fetch : str → Z → page_response.
Variable sentiment_analyzer : str → result str.
Variable sentiment_analyzer_batch : list json → result str.
Variable lower : str → str.
Variable format_percent : Z → Z → str.
Variable exception_text : raised → str.
Variable print_line : str → outcome unit.
Variable error_text : str → Z → str.

Local Abbreviation get := (get_daraz_reviews is_digit fetch).
Local Abbreviation get_reporting :=
  (get_daraz_reviews_reporting is_digit fetch print_line error_text).
Local Abbreviation labels := (sentiments_of sentiment_analyzer sentiment_analyzer_batch).
Local Abbreviation negatives :=
  (negative_reviews sentiment_analyzer sentiment_analyzer_batch).
Local Abbreviation serve :=
  (analyze_product is_digit fetch sentiment_analyzer sentiment_analyzer_batch lower
     format_percent exception_text print_line error_text).
Local Abbreviation n_positive reviews := (count_label (lit "POSITIVE") (labels reviews)).
Local Abbreviation n_negative reviews := (count_label (lit "NEGATIVE") (labels reviews)).
Local Abbreviation counted reviews :=
  (foldl (λ c issue, incr issue c) [] (issue_sequence lower (negatives reviews))).
Local Abbreviation answer :=
  (λ reviews : list review,
   match reviews with
   | [] =>
     {| status := lit "success"; message := Some (lit "No reviews found");
        data := {| reviews_count := 0; sentiment := None;
                   common_issues := None; sample_reviews := None |} |}
   | _ :: _ =>
     let n := Z.of_nat (length reviews) in
     {| status := lit "success"; message := None;
        data := {| reviews_count := n;
                   sentiment :=
                     Some {| positive := n_positive reviews;
                             negative := n_negative reviews;
                             neutral := n - n_positive reviews - n_negative reviews;
                             positive_percent := format_percent (n_positive reviews) n;
                             negative_percent := format_percent (n_negative reviews) n |};
                   common_issues :=
                     Some (map (λ kv, {| issue_name := kv.1; issue_count := kv.2 |})
                               (sorted_desc (counted reviews)));
                   sample_reviews := Some (take 3 reviews) |} |}
   end).

Lemma stats_lookups (t p n u : Z) :
  let m : gmap string Z :=
    <[ "total" := t ]> (<[ "positive" := p ]> (<[ "negative" := n ]> {[ "neutral" := u ]})) in
  m !! "positive" = Some p ∧ m !! "negative" = Some n ∧ m !! "neutral" = Some u.
Proof. intros m. unfold m. split_and!; by simplify_map_eq. Qed.

Lemma analyze_product_invalid (url : str) (max_pages : Z) :
  contains url (lit "daraz.pk") = false →
  serve url max_pages =
    (Raises (HTTPException 500
               (exception_text (HTTPException 400 (lit "Invalid Daraz URL")))), []).
Proof. intros H. unfold analyze_product, handle_request. by rewrite H. Qed.


(** The reviews that the loop returns on any stdout are those of
    [fetch_pages], and so are the pages requested. *)
Lemma fetch_pages_reporting_Returns (product_id : str) (n : nat) (page : Z)
    (reviews : list review) (log : list Z) (fetched : list review) :
  (fetch_pages_reporting fetch print_line error_text product_id n page reviews log).1 =
    Returns fetched →
  fetch_pages_reporting fetch print_line error_text product_id n page reviews log =
    (Returns fetched, (fetch_pages fetch product_id n page reviews log).2) ∧
  fetched = (fetch_pages fetch product_id n page reviews log).1.
Proof.
  revert page reviews log.
  induction n as [|n IH]; intros page reviews log; cbn [fetch_pages_reporting fetch_pages].
  { by intros [= <-]. }
  destruct (fetch product_id page) as [|items].
  { destruct (report_error _ _ _ _); [apply IH|done]. }
  destruct (append_items items reviews) as [reviews' [[]|e]].
  - destruct items; [by intros [= <-]|apply IH].
  - destruct (report_error _ _ _ _); [apply IH|done].
Qed.


Lemma get_reporting_Returns (url : str) (max_pages : Z) (fetched : list review) :
  (get_reporting url max_pages).1 = Returns fetched →
  get_reporting url max_pages = (Returns fetched, (get url max_pages).2) ∧
  fetched = (get url max_pages).1.
Proof.
  unfold get_daraz_reviews_reporting, get_daraz_reviews.
  destruct (re_search is_digit url); [apply fetch_pages_reporting_Returns|].
  by intros [= <-].
Qed.

(** The answer to a url of the marketplace, read off the reviews fetched:
    stdout takes the line of line 115, the fetcher returns and the issue
    loop runs to its end. *)
Lemma analyze_product_valid (url : str) (max_pages : Z) :
  contains url (lit "daraz.pk") = true →
  print_line (lit "Fetching reviews from: " ++ url) = Returns tt →
  get_reporting url max_pages = (Returns (get url max_pages).1, (get url max_pages).2) →
  Forall (λ r, is_Some (text_of (content r))) (negatives (get url max_pages).1) →
  serve url max_pages = (Returns (answer (get url max_pages).1), (get url max_pages).2).
Proof.
  intros Hvalid Hprint Hget. unfold analyze_product, handle_request.
  rewrite Hvalid, Hprint, Hget.
  destruct (get url max_pages) as [reviews log]. cbn [fst snd mbind outcome_bind].
  destruct reviews as [|r l]; [done|]. intros Htext.
  rewrite analyze_reviews_nonempty by done.
  cbn [called mbind outcome_bind stats issues]. unfold getitem, negative_count.
  match goal with |- context [<[ "total" := ?t ]> (<[ "positive" := ?p ]>
                      (<[ "negative" := ?n ]> {[ "neutral" := ?u ]}))] =>
    destruct (stats_lookups t p n u) as (Hp & Hn & Hu) end.
  rewrite Hp, Hn, Hu.
  cbn [mbind outcome_bind]. unfold percent.
  rewrite !decide_False by (cbn [length]; lia).
  cbn [mbind outcome_bind].
  rewrite (take_ge (sorted_desc _)); [done|].
  rewrite sorted_desc_Permutation. apply counted_length.
Qed.

(** An answer that was returned is that one. *)
Lemma analyze_product_Returns (url : str) (max_pages : Z) (r : response) :
  (serve url max_pages).1 = Returns r → r = answer (get url max_pages).1.
Proof.
  destruct (contains url (lit "daraz.pk")) eqn:Hvalid;
    [|by rewrite analyze_product_invalid].
  destruct (print_line (lit "Fetching reviews from: " ++ url)) as [[]|e] eqn:Hprint.
  2: { unfold analyze_product, handle_request. by rewrite Hvalid, Hprint. }
  destruct (get_reporting url max_pages).1 as [fetched|e] eqn:Hget.
  2: { unfold analyze_product, handle_request. rewrite Hvalid, Hprint.
       destruct (get_reporting url max_pages) as [out log]. cbn [fst] in Hget.
       by rewrite Hget. }
  apply get_reporting_Returns in Hget as [Hget ->].
  destruct (decide (Forall (λ r, is_Some (text_of (content r)))
                      (negatives (get url max_pages).1))) as [Htext|Htext].
  { rewrite analyze_product_valid by done. cbn [fst]. by intros [= <-]. }
  unfold analyze_product, handle_request. rewrite Hvalid, Hprint, Hget.
  destruct (get url max_pages) as [reviews log]. cbn [fst snd mbind outcome_bind] in *.
  destruct reviews as [|r0 l]; [by destruct Htext; constructor|].
  destruct (analyze_reviews sentiment_analyzer sentiment_analyzer_batch lower (r0 :: l))
    as [a|e] eqn:Ha; [|done].
  destruct Htext. by eapply analyze_reviews_inv.
Qed.

(** X12: a url without [daraz.pk] is not answered with the status 400 that
    line 113 raises: the [except] of line 149 catches that exception too,
    and the caller gets a 500 whose detail is the text of the 400.  No page
    is requested. *)
Theorem invalid_url_is_answered_500 (url : str) (max_pages : Z) :
  contains url (lit "daraz.pk") = false →
  serve url max_pages =
    (Raises (HTTPException 500
               (exception_text (HTTPException 400 (lit "Invalid Daraz URL")))), []).
Proof. apply analyze_product_invalid. Qed.


(** X14: the answer either says "No reviews found", with a count of 0 and
    no sentiment block, or it has a positive count, which is the number of
    reviews fetched, and a sentiment block whose three counts are not
    negative and add up to it. *)
Theorem response_counts_are_consistent (url : str) (max_pages : Z) (r : response) :
  (serve url max_pages).1 = Returns r →
  reviews_count (data r) = Z.of_nat (length (get url max_pages).1) ∧
  match sentiment (data r) with
  | None => reviews_count (data r) = 0 ∧ message r = Some (lit "No reviews found")
  | Some block =>
    message r = None ∧ 0 < reviews_count (data r) ∧
    positive block + negative block + neutral block = reviews_count (data r) ∧
    0 ≤ positive block ∧ 0 ≤ negative block ∧ 0 ≤ neutral block
  end.
Proof.
  intros ->%analyze_product_Returns.
  destruct (get url max_pages).1 as [|r0 l] eqn:Hr;
    cbn [data reviews_count sentiment message positive negative neutral].
  - done.
  - split; [done|].
    pose proof (count_label_nonneg (lit "POSITIVE") (labels (r0 :: l))).
    pose proof (count_label_nonneg (lit "NEGATIVE") (labels (r0 :: l))).
    pose proof (count_label_disjoint (lit "POSITIVE") (lit "NEGATIVE") (labels (r0 :: l)))
      as Hd.
    rewrite sentiments_of_length in Hd.
    assert (lit "POSITIVE" ≠ lit "NEGATIVE") as Hpn by (vm_compute; discriminate).
    specialize (Hd Hpn).
    split_and!; cbn [count_label sentiments_of length] in *; try done; lia.
Qed.

(** X15: the sample of the answer is the first three reviews fetched, in
    their order; it is never empty, and shorter than three only when fewer
    reviews were fetched. *)
Theorem sample_is_first_three (url : str) (max_pages : Z) (r : response)
    (sample : list review) :
  (serve url max_pages).1 = Returns r →
  sample_reviews (data r) = Some sample →
  sample = take 3 (get url max_pages).1 ∧
  sample ≠ [] ∧
  Z.of_nat (length sample) = Z.min 3 (reviews_count (data r)).
Proof.
  intros ->%analyze_product_Returns.
  destruct (get url max_pages).1 as [|r0 l] eqn:Hr;
    cbn [data sample_reviews reviews_count]; [done|].
  intros [= <-]. split; [done|]. split; [done|].
  cbn [length]. rewrite length_take. lia.
Qed.

(** X16: the issues of the answer are at most five, each a category of the
    taxonomy with a count of at least 1, none twice, and their counts add
    up to no more than the negative count of the sentiment block. *)
Theorem common_issues_within_negative (url : str) (max_pages : Z) (r : response)
    (block : sentiment_block) (entries : list issue_entry) :
  (serve url max_pages).1 = Returns r →
  sentiment (data r) = Some block →
  common_issues (data r) = Some entries →
  (length entries ≤ 5)%nat ∧
  NoDup (issue_name <$> entries) ∧
  Forall (λ e, issue_name e ∈ issue_keywords.*1 ∧ 1 ≤ issue_count e) entries ∧
  sum_counts ((λ e, (issue_name e, issue_count e)) <$> entries) ≤ negative block.
Proof.
  intros ->%analyze_product_Returns.
  destruct (get url max_pages).1 as [|r0 l] eqn:Hr;
    cbn [data sentiment common_issues]; [done|].
  intros [= <-] [= <-]. cbn [negative].
  set (reviews := r0 :: l).
  set (sorted := sorted_desc (counted reviews)).
  assert (sorted ≡ₚ counted reviews) as Hperm by apply sorted_desc_Permutation.
  assert ((λ e, (issue_name e, issue_count e)) <$>
            map (λ kv, {| issue_name := kv.1; issue_count := kv.2 |}) sorted = sorted)
    as Hback.
  { rewrite <- list_fmap_compose. rewrite <- (list_fmap_id sorted) at 2.
    apply list_fmap_ext. by intros _ [k v] _. }
  assert (issue_name <$>
            map (λ kv, {| issue_name := kv.1; issue_count := kv.2 |}) sorted = sorted.*1)
    as Hnames.
  { rewrite <- list_fmap_compose. apply list_fmap_ext. by intros _ [k v] _. }
  split_and!.
  - rewrite length_map, Hperm. apply counted_length.
  - rewrite Hnames, Hperm. apply foldl_incr_NoDup.
  - apply Forall_fmap, Forall_forall. intros [k v] Hin. cbn.
    rewrite Hperm in Hin. split.
    + apply (issue_sequence_in_taxonomy lower (negatives reviews)).
      apply (proj1 (foldl_incr_mem _ _)). by apply (list_elem_of_fmap_2 fst) in Hin.
    + pose proof (foldl_incr_positive
                    (issue_sequence lower (negatives reviews))
                    [] (Forall_nil_2 _)) as Hpos.
      rewrite Forall_forall in Hpos. specialize (Hpos _ Hin). cbn in Hpos. lia.
  - rewrite Hback. unfold sorted.
    rewrite sum_counts_sorted_desc, sum_counts_foldl.
    pose proof (issue_sequence_length lower (negatives reviews)).
    pose proof (negative_count_length sentiment_analyzer sentiment_analyzer_batch reviews) as Hn.
    unfold negative_count in Hn. unfold reviews in *.
    cbn [sum_counts count_label sentiments_of] in *. rewrite Hn. lia.
Qed.



(** X18: when stdout does not take the line of line 115, the url is of the
    marketplace and yet the answer is a 500 with the text of what [print]
    raised; no page is requested. *)
Theorem refused_line_is_answered_500 (url : str) (max_pages : Z) (e : raised) :
  contains url (lit "daraz.pk") = true →
  print_line (lit "Fetching reviews from: " ++ url) = Raises e →
  serve url max_pages = (Raises (HTTPException 500 (exception_text e)), []).
Proof.
  intros Hvalid Hprint. unfold analyze_product, handle_request.
  by rewrite Hvalid, Hprint.
Qed.


(** A page with an item that is not an object ends in the [except]
    branch. *)
Lemma append_items_raises (items : list raw_item) (reviews : list review) :
  ItemOther ∈ items → (append_items items reviews).2 = Raise AttributeError.
Proof.
  revert reviews. induction items as [|[a r d c l|] items IH]; intros reviews.
  - by intros ?%elem_of_nil.
  - intros [?|Hin]%elem_of_cons; [done|]. by apply IH.
  - done.
Qed.

(** The loop up to the first error line that stdout does not take. *)
Lemma fetch_pages_reporting_refused (pid : str) (a b : nat) (page : Z)
    (reviews : list review) (log : list Z) (e : raised) :
  (∀ j, page ≤ j < page + Z.of_nat a →
        fetch pid j ≠ Items [] ∧
        (page_raises (fetch pid j) →
         report_error print_line error_text pid j = Returns tt)) →
  page_raises (fetch pid (page + Z.of_nat a)) →
  report_error print_line error_text pid (page + Z.of_nat a) = Raises e →
  fetch_pages_reporting fetch print_line error_text pid (a + S b) page reviews log =
    (Raises e, log ++ seqZ page (Z.of_nat a + 1)).
Proof.
  revert page reviews log. induction a as [|a IH]; intros page reviews log Hbefore Hr He.
  - rewrite Z.add_0_r in Hr, He. cbn [Nat.add fetch_pages_reporting].
    destruct (fetch pid page) as [|items]; [by rewrite He|].
    pose proof (append_items_raises items reviews Hr) as Hs.
    destruct (append_items items reviews) as [reviews' st]. cbn [snd] in Hs. subst st.
    by rewrite He.
  - replace (S a + S b)%nat with (S (a + S b)) by done.
    cbn [fetch_pages_reporting].
    destruct (Hbefore page) as [Hne Hprint]; [lia|].
    assert (fetch_pages_reporting fetch print_line error_text pid (a + S b) (page + 1)
              (reviews ++ page_reviews (fetch pid page)) (log ++ [page]) =
            (Raises e, log ++ seqZ page (Z.of_nat (S a) + 1))) as Hnext.
    { rewrite IH.
      - rewrite (seqZ_cons page (Z.of_nat (S a) + 1)) by lia.
        rewrite <- app_assoc. cbn [app].
        replace (Z.succ page) with (page + 1) by lia.
        by replace (Z.pred (Z.of_nat (S a) + 1)) with (Z.of_nat a + 1) by lia.
      - intros j Hj. apply Hbefore. lia.
      - by replace (page + 1 + Z.of_nat a) with (page + Z.of_nat (S a)) by lia.
      - by replace (page + 1 + Z.of_nat a) with (page + Z.of_nat (S a)) by lia. }
    destruct (fetch pid page) as [|items] eqn:Hf.
    + rewrite Hprint by done. cbn [page_reviews] in Hnext. by rewrite app_nil_r in Hnext.
    + pose proof (append_items_parsed items reviews) as Hp.
      pose proof (append_items_status items reviews) as Hs.
      destruct (append_items items reviews) as [reviews' st]. cbn [fst snd] in Hp, Hs.
      subst reviews'. destruct Hs as [->|[-> Hin]].
      * destruct items; [done|exact Hnext].
      * rewrite Hprint by done. exact Hnext.
Qed.

(** X20: when stdout does not take the line that line 49 prints for the
    failed page [k], the exception of [print] leaves the [except] branch
    and the fetcher: the answer is a 500 with its text, the reviews of the
    earlier pages are lost, and no page after [k] is requested. *)
Theorem refused_error_line_is_answered_500 (url pid : str) (max_pages k : Z)
    (e : raised) :
  contains url (lit "daraz.pk") = true →
  print_line (lit "Fetching reviews from: " ++ url) = Returns tt →
  re_search is_digit url = Some pid →
  1 ≤ k ≤ max_pages →
  (∀ j, 1 ≤ j < k →
        fetch pid j ≠ Items [] ∧
        (page_raises (fetch pid j) →
         report_error print_line error_text pid j = Returns tt)) →
  page_raises (fetch pid k) →
  report_error print_line error_text pid k = Raises e →
  serve url max_pages = (Raises (HTTPException 500 (exception_text e)), seqZ 1 k).
Proof.
  intros Hvalid Hprint Hid Hk Hbefore Hr He.
  unfold analyze_product, handle_request, get_daraz_reviews_reporting.
  rewrite Hvalid, Hprint, Hid.
  replace (Z.to_nat max_pages)
    with (Z.to_nat (k - 1) + S (Z.to_nat (max_pages - k)))%nat by lia.
  rewrite (fetch_pages_reporting_refused pid _ _ 1 [] [] e).
  - cbn [app mbind outcome_bind]. do 3 f_equal. lia.
  - intros j Hj. apply Hbefore. lia.
  - by replace (1 + Z.of_nat (Z.to_nat (k - 1))) with k by lia.
  - by replace (1 + Z.of_nat (Z.to_nat (k - 1))) with k by lia.
Qed.

End HandlerProperties.

Lemma invalid_url_is_answered_500_witness :
  analyze_product ascii_digit two_per_page always_negative no_batch ascii_lower ratio_text
    detail_text prints_all timeout_text (lit "https://example.com/phone-i4711.html") 3 =
  (Raises (HTTPException 500 (lit "400: Invalid Daraz URL")), []).
Proof.
  apply (invalid_url_is_answered_500 ascii_digit two_per_page always_negative no_batch
           ascii_lower ratio_text detail_text prints_all timeout_text
           (lit "https://example.com/phone-i4711.html") 3).
  vm_compute. reflexivity.
Defined.


Lemma response_counts_are_consistent_witness :
  ∃ r, (analyze_product ascii_digit two_per_page always_negative no_batch ascii_lower
          ratio_text detail_text prints_all timeout_text product_url 2).1 = Returns r ∧
       reviews_count (data r) =
         Z.of_nat (length (get_daraz_reviews ascii_digit two_per_page product_url 2).1) ∧
       match sentiment (data r) with
       | None => reviews_count (data r) = 0 ∧ message r = Some (lit "No reviews found")
       | Some block =>
         message r = None ∧ 0 < reviews_count (data r) ∧
         positive block + negative block + neutral block = reviews_count (data r) ∧
         0 ≤ positive block ∧ 0 ≤ negative block ∧ 0 ≤ neutral block
       end.
Proof.
  eexists. split; [reflexivity|].
  eapply (response_counts_are_consistent ascii_digit two_per_page always_negative no_batch
            ascii_lower ratio_text detail_text prints_all timeout_text product_url 2).
  reflexivity.
Defined.

Lemma sample_is_first_three_witness :
  ∃ r sample,
    (analyze_product ascii_digit two_per_page always_negative no_batch ascii_lower
       ratio_text detail_text prints_all timeout_text product_url 2).1 = Returns r ∧
    sample_reviews (data r) = Some sample ∧
    sample = take 3 (get_daraz_reviews ascii_digit two_per_page product_url 2).1 ∧
    sample ≠ [] ∧
    Z.of_nat (length sample) = Z.min 3 (reviews_count (data r)).
Proof.
  eexists _, _. split; [reflexivity|]. split; [reflexivity|].
  eapply (sample_is_first_three ascii_digit two_per_page always_negative no_batch
            ascii_lower ratio_text detail_text prints_all timeout_text product_url 2);
    reflexivity.
Defined.

Lemma common_issues_within_negative_witness :
  ∃ r block entries,
    (analyze_product ascii_digit two_per_page always_negative no_batch ascii_lower
       ratio_text detail_text prints_all timeout_text product_url 2).1 = Returns r ∧
    sentiment (data r) = Some block ∧
    common_issues (data r) = Some entries ∧
    (length entries ≤ 5)%nat ∧
    NoDup (issue_name <$> entries) ∧
    Forall (λ e, issue_name e ∈ issue_keywords.*1 ∧ 1 ≤ issue_count e) entries ∧
    sum_counts ((λ e, (issue_name e, issue_count e)) <$> entries) ≤ negative block.
Proof.
  eexists _, _, _. split; [reflexivity|]. split; [reflexivity|]. split; [reflexivity|].
  eapply (common_issues_within_negative ascii_digit two_per_page always_negative no_batch
            ascii_lower ratio_text detail_text prints_all timeout_text product_url 2);
    reflexivity.
Defined.


Lemma refused_line_is_answered_500_witness :
  analyze_product ascii_digit two_per_page always_negative no_batch ascii_lower ratio_text
    detail_text prints_ascii timeout_text surrogate_url 3 =
  (Raises (HTTPException 500 (lit "codec can't encode character")), []).
Proof.
  apply (refused_line_is_answered_500 ascii_digit two_per_page always_negative no_batch
           ascii_lower ratio_text detail_text prints_ascii timeout_text
           surrogate_url 3 UnicodeEncodeError).
  - vm_compute. reflexivity.
  - vm_compute. reflexivity.
Defined.


Lemma refused_error_line_is_answered_500_witness :
  analyze_product ascii_digit always_fails always_negative no_batch ascii_lower ratio_text
    detail_text prints_ascii accented_text product_url 3 =
  (Raises (HTTPException 500 (lit "codec can't encode character")), seqZ 1 1).
Proof.
  apply (refused_error_line_is_answered_500 ascii_digit always_fails always_negative
           no_batch ascii_lower ratio_text detail_text prints_ascii accented_text
           product_url (lit "4711") 3 1 UnicodeEncodeError).
  - vm_compute. reflexivity.
  - vm_compute. reflexivity.
  - vm_compute. reflexivity.
  - lia.
  - intros j Hj. lia.
  - exact I.
  - vm_compute. reflexivity.
Defined.
